(** * djmarinara: the buffer control loop, embedded and verified

    A shallow embedding of [src/djmarinara/djmarinara.py] (class
    [djmarinara]) and the properties its specification states about it.

    Modelling conventions.
    - Python [str] is [string] (one-byte characters; [lower], [isdigit]
      and the digit class of [re] are the ASCII ones).
    - Python [int] is [Z].  Python [float] (times, durations, the gas
      tank, throughput ratios, disk fractions) is the exact rational
      [Q]: rounding of binary floating point is not represented.
    - [self] is split in two records: [Config] holds the attributes that
      are assigned once in [__init__], [State] those that are reassigned
      while the program runs.
    - The file system is a finite map from path to file contents.  Files
      of the working directory are keyed by their bare name, files of
      the media directory by [mediapath ++ "/" ++ name]; the working
      directory is assumed not to be the media directory.
    - Everything the program gets from outside (HTTP responses, the
      clock, [random.choice], ffprobe/ffmpeg results, zip contents, disk
      usage, modification times) is an explicit environment argument of
      the function that asks for it.
    - [print] and [time.sleep] append an event to the output of the
      world, so that what the program selected, reported and waited for
      can be stated.
    - A computation returns a value, raises a Python exception, or is
      still looping when the environment script given to it ends
      ([Spin]); [try: ... except:] catches exceptions only. *)

From Stdlib Require Import ZArith QArith Lqa String Ascii List.
From Stdlib Require Import DecimalString DecimalZ DecimalPos DecimalFacts.
From stdpp Require Import gmap strings list sorting.

Local Open Scope Z_scope.
Local Open Scope string_scope.

(** ** Python strings *)

Module Py.

Definition nl : string := String (ascii_of_nat 10) "".

Definition is_digit (c : ascii) : bool :=
  (48 <=? nat_of_ascii c)%nat && (nat_of_ascii c <=? 57)%nat.

Definition is_upper (c : ascii) : bool :=
  (65 <=? nat_of_ascii c)%nat && (nat_of_ascii c <=? 90)%nat.

Definition lower_char (c : ascii) : ascii :=
  if is_upper c then ascii_of_nat (nat_of_ascii c + 32) else c.

(** [s.lower()] *)
Fixpoint lower (s : string) : string :=
  match s with
  | "" => ""
  | String c s' => String (lower_char c) (lower s')
  end.

(** [''.join(filter(str.isdigit, s))] *)
Fixpoint keep_digits (s : string) : string :=
  match s with
  | "" => ""
  | String c s' => if is_digit c then String c (keep_digits s') else keep_digits s'
  end.

Fixpoint all_digits (s : string) : bool :=
  match s with
  | "" => true
  | String c s' => is_digit c && all_digits s'
  end.

Fixpoint no_digits (s : string) : bool :=
  match s with
  | "" => true
  | String c s' => negb (is_digit c) && no_digits s'
  end.

(** [s.isdigit()]: false on the empty string *)
Definition isdigit (s : string) : bool :=
  match s with
  | "" => false
  | _ => all_digits s
  end.

(** [int(s)] on the strings the program passes to it, which are made of
    decimal digits only; the empty string is a [ValueError] ([None]). *)
Definition int (s : string) : option Z :=
  if isdigit s then Z.of_uint <$> NilEmpty.uint_of_string s else None.

(** [str(n)] for an [int] *)
Definition str (n : Z) : string := NilZero.string_of_int (Z.to_int n).

(** [s.endswith(suf)] *)
Definition endswith (s suf : string) : bool :=
  String.prefix (String.rev suf) (String.rev s).

(** [s.startswith(pre)] *)
Definition startswith (s pre : string) : bool := String.prefix pre s.

(** [s.split(sep)] for a non-empty separator: pieces between the
    non-overlapping occurrences of [sep], scanned from the left. *)
Fixpoint split_go (sep : string) (skip : nat) (cur s : string) : list string :=
  match s with
  | "" => [cur]
  | String c s' =>
      match skip with
      | S k => split_go sep k cur s'
      | O =>
          if String.prefix sep s
          then cur :: split_go sep (String.length sep - 1) "" s'
          else split_go sep 0 (cur +:+ String c "") s'
      end
  end.

Definition split (sep s : string) : list string := split_go sep 0 "" s.

(** [l[-1]] on the result of a [split], which is never empty *)
Definition last (l : list string) : string := List.last l "".

(** [s.replace(a, b)] for single characters *)
Fixpoint replace_char (a b : ascii) (s : string) : string :=
  match s with
  | "" => ""
  | String c s' => String (if Ascii.eqb c a then b else c) (replace_char a b s')
  end.

Fixpoint contains_char (a : ascii) (s : string) : bool :=
  match s with
  | "" => false
  | String c s' => Ascii.eqb c a || contains_char a s'
  end.

(** [x in l] for a list of strings *)
Definition inb (x : string) (l : list string) : bool :=
  bool_decide (x ∈ l).

End Py.

(** ** Natural order of file names: [atoi], [naturalKeys] *)

(** An element of a sort key: [atoi] returns an [int] or a [str]. *)
Inductive KeyElt : Type :=
  | KInt (n : Z)
  | KStr (s : string).

#[global] Instance KeyElt_eq_dec : EqDecision KeyElt.
Proof. solve_decision. Defined.

(** [re.split(r'(\d+)', text)]: the maximal runs of non-digits and of
    digits, alternating, starting and ending with a non-digit run that
    may be empty. [dig] tells whether the run [cur] being read is a digit
    run. *)
Fixpoint runs_go (dig : bool) (cur s : string) : list string :=
  match s with
  | "" => if dig then [cur; ""] else [cur]
  | String c s' =>
      if Bool.eqb (Py.is_digit c) dig
      then runs_go dig (cur +:+ String c "") s'
      else cur :: runs_go (negb dig) (String c "") s'
  end.

Definition re_split_digits (text : string) : list string := runs_go false "" text.

(** [def atoi(self, text): return int(text) if text.isdigit() else text] *)
Definition atoi (text : string) : KeyElt :=
  if Py.isdigit text
  then match Py.int text with Some n => KInt n | None => KStr text end
  else KStr text.

(** [def naturalKeys(self, text): return [self.atoi(c) for c in re.split(r'(\d+)', text)]] *)
Definition naturalKeys (text : string) : list KeyElt :=
  map atoi (re_split_digits text).

(** [a < b] on key elements: defined between two [int]s and between two
    [str]s; between an [int] and a [str] Python raises [TypeError]
    ([None]). *)
Definition elt_lt (a b : KeyElt) : option bool :=
  match a, b with
  | KInt x, KInt y => Some (x <? y)%Z
  | KStr s, KStr t => Some (String.ltb s t)
  | _, _ => None
  end.

(** [k1 < k2] on lists: the first position where the elements differ
    decides; a proper prefix is smaller. *)
Fixpoint key_lt (k1 k2 : list KeyElt) : option bool :=
  match k1, k2 with
  | [], [] => Some false
  | [], _ :: _ => Some true
  | _ :: _, [] => Some false
  | a :: k1', b :: k2' =>
      if bool_decide (a = b) then key_lt k1' k2' else elt_lt a b
  end.

(** Comparison of two names by their natural keys. Keys made by
    [naturalKeys] hold a [str] at every even and an [int] at every odd
    position, so the [TypeError] case does not arise (lemma
    [natural_comparable]); it is read as [false] here. *)
Definition natural_lt (x y : string) : bool :=
  default false (key_lt (naturalKeys x) (naturalKeys y)).

(** [l.sort(key=self.naturalKeys)]: Python's sort is stable and compares
    keys with [<] only; stable insertion gives the same list. *)
Fixpoint insert_natural (x : string) (l : list string) : list string :=
  match l with
  | [] => [x]
  | y :: l' => if natural_lt y x then y :: insert_natural x l' else x :: y :: l'
  end.

Fixpoint sort_natural (l : list string) : list string :=
  match l with
  | [] => []
  | x :: l' => insert_natural x (sort_natural l')
  end.

(** ** The object *)

(** Attributes of [self] assigned once, in [__init__]. *)
Record Config : Type := {
  extensions : list string;
  temppath : string;
  mediapath : string;
  playlisturl : string;
  fonturl : string;
  startupvideo : string;
  gastanklimit : Q;
  linewidth : nat;
  maxlength : Q;
  manifest : list string;
  mincrf : Z;
  maxcrf : Z;
  targetspeed : Q;
  qualitypresets : list string
}.

(** Attributes of [self] that are reassigned while the program runs.
    [gastank], [filenumber], [elapsedtime] and [starttime] are first
    assigned by [initRun], which [run] calls before anything reads them. *)
Record State : Type := {
  listhash : string;
  crf : Z;
  preset : Z;
  gastank : Q;
  filenumber : Z;
  elapsedtime : Q;
  starttime : Q
}.

Definition set_listhash (v : string) (s : State) : State :=
  {| listhash := v; crf := crf s; preset := preset s; gastank := gastank s;
     filenumber := filenumber s; elapsedtime := elapsedtime s; starttime := starttime s |}.
Definition set_crf (v : Z) (s : State) : State :=
  {| listhash := listhash s; crf := v; preset := preset s; gastank := gastank s;
     filenumber := filenumber s; elapsedtime := elapsedtime s; starttime := starttime s |}.
Definition set_preset (v : Z) (s : State) : State :=
  {| listhash := listhash s; crf := crf s; preset := v; gastank := gastank s;
     filenumber := filenumber s; elapsedtime := elapsedtime s; starttime := starttime s |}.
Definition set_gastank (v : Q) (s : State) : State :=
  {| listhash := listhash s; crf := crf s; preset := preset s; gastank := v;
     filenumber := filenumber s; elapsedtime := elapsedtime s; starttime := starttime s |}.
Definition set_filenumber (v : Z) (s : State) : State :=
  {| listhash := listhash s; crf := crf s; preset := preset s; gastank := gastank s;
     filenumber := v; elapsedtime := elapsedtime s; starttime := starttime s |}.
Definition set_elapsedtime (v : Q) (s : State) : State :=
  {| listhash := listhash s; crf := crf s; preset := preset s; gastank := gastank s;
     filenumber := filenumber s; elapsedtime := v; starttime := starttime s |}.
Definition set_starttime (v : Q) (s : State) : State :=
  {| listhash := listhash s; crf := crf s; preset := preset s; gastank := gastank s;
     filenumber := filenumber s; elapsedtime := elapsedtime s; starttime := v |}.

(** [__init__], with the text of the file [manifest] as read from the
    working directory.  ([getFont], which downloads [font.ttf], is not
    part of the control loop.) *)
Definition init_config (extensions : list string)
    (temppath mediapath playlisturl fonturl startupvideo : string)
    (gastanklimit targetspeed : Q) (manifest_text : string) : Config :=
  {| extensions := extensions;
     temppath := temppath;
     mediapath := mediapath;
     playlisturl := playlisturl;
     fonturl := fonturl;
     startupvideo := startupvideo;
     gastanklimit := gastanklimit;
     linewidth := 80;
     maxlength := gastanklimit / 2;
     manifest := Py.split Py.nl manifest_text;
     mincrf := 17;
     maxcrf := 28;
     targetspeed := targetspeed;
     qualitypresets := ["ultrafast"; "superfast"; "veryfast"; "faster"; "fast";
                        "medium"; "slow"; "slower"; "veryslow"] |}.

Definition init_state : State :=
  {| listhash := ""; crf := 17; preset := 0;
     gastank := 0; filenumber := 0; elapsedtime := 0; starttime := 0 |}.

Definition default_extensions : list string :=
  ["zip"; "xm"; "it"; "s3m"; "mod"; "mp3"; "mp4"; "flac"; "m4a"; "aac"; "flv";
   "3gp"; "ogg"; "ra"; "rm"].

(** The configuration of [main.py]. *)
Definition main_config (manifest_text : string) : Config :=
  init_config default_extensions "/tmp/songs" "/media"
    "[YOUR_PLAYLIST_URL_HERE]" "[YOUR_FONT_URL_HERE]" "[YOUR_STARTUP_VIDEO_HERE]"
    3600 2 manifest_text.

(** ** The world and computations on it *)

Inductive Exn : Type :=
  | IndexError | KeyError | ValueError | TypeError | ZeroDivisionError
  | FileNotFoundError | OSError | URLError.

(** An argument of a [print] call. [AExt] stands for text that comes from
    an external tool and is not represented. *)
Inductive Arg : Type :=
  | AStr (s : string)
  | AInt (n : Z)
  | ANum (q : Q)
  | AExt.

Inductive Event : Type :=
  | Print (args : list Arg)
  | Traceback (e : Exn)
  | Sleep (d : Q).

Record World : Type := {
  self : State;
  fs : gmap string string;
  out : list Event
}.

Definition with_self (s : State) (w : World) : World :=
  {| self := s; fs := fs w; out := out w |}.
Definition with_fs (f : gmap string string) (w : World) : World :=
  {| self := self w; fs := f; out := out w |}.
Definition with_out (o : list Event) (w : World) : World :=
  {| self := self w; fs := fs w; out := o |}.

Inductive Res (A : Type) : Type :=
  | Ok (a : A)
  | Raise (e : Exn)
  | Spin.
Arguments Ok {A} a.
Arguments Raise {A} e.
Arguments Spin {A}.

Definition M (A : Type) : Type := World -> Res A * World.

Definition ret {A} (a : A) : M A := fun w => (Ok a, w).
Definition raise {A} (e : Exn) : M A := fun w => (Raise e, w).
Definition spin {A} : M A := fun w => (Spin, w).

Definition bind {A B} (m : M A) (k : A -> M B) : M B :=
  fun w =>
    match m w with
    | (Ok a, w') => k a w'
    | (Raise e, w') => (Raise e, w')
    | (Spin, w') => (Spin, w')
    end.

(** [try: m  except: h] *)
Definition try_except {A} (m : M A) (h : Exn -> M A) : M A :=
  fun w =>
    match m w with
    | (Raise e, w') => h e w'
    | r => r
    end.

Notation "'let*' x ':=' m 'in' k" := (bind m (fun x => k))
  (at level 10, x name, m at level 100, k at level 200).
Notation "m >> k" := (bind m (fun _ => k))
  (at level 90, right associativity).

Definition get_self : M State := fun w => (Ok (self w), w).
Definition modify_self (f : State -> State) : M unit :=
  fun w => (Ok tt, with_self (f (self w)) w).
Definition get_fs : M (gmap string string) := fun w => (Ok (fs w), w).
Definition emit (ev : Event) : M unit :=
  fun w => (Ok tt, with_out (out w ++ [ev]) w).

Definition print (args : list Arg) : M unit := emit (Print args).

(** [time.sleep(d)]; a negative length is a [ValueError] *)
Definition time_sleep (d : Q) : M unit :=
  if Qle_bool 0 d then emit (Sleep d) else raise ValueError.

Definition of_option {A} (e : Exn) (o : option A) : M A :=
  match o with
  | Some a => ret a
  | None => raise e
  end.

Fixpoint for_each {A} (l : list A) (body : A -> M unit) : M unit :=
  match l with
  | [] => ret tt
  | x :: l' => body x >> for_each l' body
  end.

(** [l[i]] with Python's negative indices *)
Definition py_index {A} (l : list A) (i : Z) : option A :=
  let n := Z.of_nat (length l) in
  if (0 <=? i)%Z && (i <? n)%Z then l !! Z.to_nat i
  else if (- n <=? i)%Z && (i <? 0)%Z then l !! Z.to_nat (n + i)
  else None.

(** Strict comparison of two floats *)
Definition Qltb (x y : Q) : bool := negb (Qle_bool y x).

(** [a / b] on floats *)
Definition py_div (a b : Q) : M Q :=
  if Qeq_bool b 0 then raise ZeroDivisionError else ret (a / b)%Q.

(** ** The file system *)

(** A path that starts with [./] names a file of the working directory. *)
Definition norm (path : string) : string :=
  match path with
  | String "." (String "/" rest) => rest
  | _ => path
  end.

(** [open(path, 'w')] followed by the writes and the close: the file
    holds [data] afterwards. The empty path cannot be opened. *)
Definition open_write (path data : string) : M unit :=
  fun w =>
    if bool_decide (norm path = "") then (Raise FileNotFoundError, w)
    else (Ok tt, with_fs (<[norm path := data]> (fs w)) w).

(** [os.remove(path)] *)
Definition os_remove (path : string) : M unit :=
  fun w =>
    match fs w !! norm path with
    | Some _ => (Ok tt, with_fs (delete (norm path) (fs w)) w)
    | None => (Raise FileNotFoundError, w)
    end.

(** [os.path.exists(path)] *)
Definition os_path_exists (path : string) : M bool :=
  fun w => (Ok (bool_decide (is_Some (fs w !! norm path))), w).

(** [os.path.getsize(path)] *)
Definition os_path_getsize (path : string) : M nat :=
  fun w =>
    match fs w !! norm path with
    | Some data => (Ok (String.length data), w)
    | None => (Raise FileNotFoundError, w)
    end.

(** [shutil.copy(src, dst)]. [ok] is the environment's part: whether the
    destination can be written in full. A copy that cannot complete
    raises and leaves no destination file behind in this model. *)
Definition shutil_copy (ok : bool) (src dst : string) : M unit :=
  fun w =>
    match fs w !! norm src with
    | Some data =>
        if ok then open_write dst data w else (Raise OSError, w)
    | None => (Raise FileNotFoundError, w)
    end.

(** [os.path.join(a, b)] *)
Definition path_join (a b : string) : string :=
  if Py.startswith b "/" then b
  else if bool_decide (a = "") || Py.endswith a "/" then a +:+ b
  else a +:+ "/" +:+ b.

Fixpoint strip_prefix (pre s : string) : option string :=
  match pre with
  | "" => Some s
  | String a pre' =>
      match s with
      | "" => None
      | String b s' => if Ascii.eqb a b then strip_prefix pre' s' else None
      end
  end.

(** A directory entry [n] matches the pattern [pre*suf]. An entry that
    starts with a dot is matched only by a pattern that does. *)
Definition name_matches (pre suf n : string) : bool :=
  negb (bool_decide (n = ""))
  && negb (Py.contains_char "/" n)
  && Py.startswith n pre && Py.endswith n suf
  && (String.length pre + String.length suf <=? String.length n)%nat
  && (negb (Py.startswith n ".") || Py.startswith pre ".").

Definition glob_test (dir pre suf path : string) : bool :=
  match strip_prefix (dir +:+ "/") path with
  | Some n => name_matches pre suf n
  | None => false
  end.

(** [glob.glob(dir + '/' + pre + '*' + suf)]: the paths of the entries of
    [dir] that match, in the order the map lists them (Python leaves the
    order unspecified). *)
Definition glob (dir pre suf : string) : M (list string) :=
  fun w => (Ok (List.filter (glob_test dir pre suf) (map fst (map_to_list (fs w)))), w).

(** [glob.glob('./*')]: the visible entries of the working directory. *)
Definition glob_cwd : M (list string) :=
  fun w => (Ok (map (fun n => "./" +:+ n)
                  (List.filter (name_matches "" "") (map fst (map_to_list (fs w))))), w).

(** [str(buf)] for [bytes]: its [repr]. *)
Definition hex_digit (n : nat) : ascii :=
  nth n ["0"; "1"; "2"; "3"; "4"; "5"; "6"; "7"; "8"; "9";
         "a"; "b"; "c"; "d"; "e"; "f"]%char "0"%char.

Definition escape_byte (q c : ascii) : string :=
  let n := nat_of_ascii c in
  if Ascii.eqb c q || Ascii.eqb c "\" then String "\" (String c "")
  else if (n =? 9)%nat then "\t"
  else if (n =? 10)%nat then "\n"
  else if (n =? 13)%nat then "\r"
  else if (n <? 32)%nat || (127 <=? n)%nat
       then String "\" (String "x" (String (hex_digit (n / 16)) (String (hex_digit (n mod 16)) "")))
  else String c "".

Fixpoint escape_bytes (q : ascii) (buf : string) : string :=
  match buf with
  | "" => ""
  | String c buf' => escape_byte q c +:+ escape_bytes q buf'
  end.

Definition bytes_repr (buf : string) : string :=
  let dq : ascii := ascii_of_nat 34 in
  let q : ascii :=
    if Py.contains_char "'" buf && negb (Py.contains_char dq buf)
    then dq else "'"%char in
  "b" +:+ String q (escape_bytes q buf +:+ String q "").

(** ** The quality controller *)

(** [def clamp(self, n, minn, maxn): return max(min(maxn, n), minn)] *)
Definition clamp (n minn maxn : Z) : Z := Z.max (Z.min maxn n) minn.

(** Lines 267-280 of [processFile]: the new quality factor and preset
    for an observed throughput [ratio]. *)
Definition tune (cfg : Config) (ratio : Q) (s : State) : State :=
  let s1 :=
    if Qltb ratio (targetspeed cfg) then set_crf (crf s + 1) s
    else if Qltb (targetspeed cfg) ratio then set_crf (crf s - 1) s
    else s in
  let s2 := set_crf (clamp (crf s1) (mincrf cfg) (maxcrf cfg)) s1 in
  if Qltb ratio (targetspeed cfg - 0.5) && (0 <? preset s2)%Z
  then set_preset (preset s2 - 1) s2
  else if Qltb (targetspeed cfg + 0.5) ratio && (preset s2 <? 8)%Z
  then set_preset (preset s2 + 1) s2
  else s2.

(** ** The gas tank *)

(** [checkGas], with the reading of [time.time()] *)
Definition checkGas (curtime : Q) : M Q :=
  let* s := get_self in
  let newelapsed := (curtime - starttime s)%Q in
  let gasused := (newelapsed - elapsedtime s)%Q in
  print [AStr "Elapsed since start:"; ANum newelapsed] >>
  print [AStr "Gas used this round:"; ANum gasused] >>
  modify_self (fun s => set_gastank (gastank s - gasused)%Q s) >>
  modify_self (set_elapsedtime newelapsed) >>
  let* s := get_self in
  ret (gastank s).

(** [self.gastank += float(filedata['duration'])] *)
Definition add_gas (duration : Q) : M unit :=
  modify_self (fun s => set_gastank (gastank s + duration)%Q s).

(** [getFileNumber] *)
Definition getFileNumber (cfg : Config) : M unit :=
  let* lastnumber :=
    try_except
      (let* filelist := glob (mediapath cfg) "" ".txt" in
       let filelist := sort_natural filelist in
       let* lastfile := of_option IndexError (last filelist) in
       let* lastnumber := of_option ValueError (Py.int (Py.keep_digits lastfile)) in
       ret (if (lastnumber =? 1)%Z then 0 else lastnumber))
      (fun _ => print [AStr "Couldn't find valid startup files!"] >> ret 0) in
  print [AStr "File number is now:"; AInt lastnumber] >>
  modify_self (set_filenumber lastnumber).

(** [initRun], with the reading of [time.time()] *)
Definition initRun (cfg : Config) (now : Q) : M unit :=
  modify_self (set_gastank 0) >>
  getFileNumber cfg >>
  modify_self (set_elapsedtime 0) >>
  modify_self (set_starttime now).

(** ** Producing a segment *)

(** What ffprobe reports, as far as [convertFile] reads it: the keys
    [filename] and [duration] of [format], and [title], [artist] and
    [comment] of [format.tags]. A key that is absent, or whose parent is
    absent, is [None]. The duration is given as [float()] reads it;
    [Some None] is a value that [float()] rejects. *)
Record ProbeJson : Type := {
  pj_filename : option string;
  pj_title : option string;
  pj_artist : option string;
  pj_comment : option string;
  pj_duration : option (option Q)
}.

(** The dictionary [filedata] *)
Record FileData : Type := {
  fd_filename : option string;
  fd_title : option string;
  fd_artist : option string;
  fd_comments : option string;
  fd_duration : option Q;
  fd_playfile : option string;
  fd_textfile : option string
}.

(** [{}] *)
Definition empty_filedata : FileData :=
  {| fd_filename := None; fd_title := None; fd_artist := None; fd_comments := None;
     fd_duration := None; fd_playfile := None; fd_textfile := None |}.

(** The environment of one call of [convertFile]. *)
Record ConvEnv : Type := {
  (** output of ffprobe; [None] when it cannot be run or decoded *)
  v_probe : option ProbeJson;
  (** [textwrap.wrap] with the options of [makeText] *)
  v_wrap : string -> list string;
  (** [out.aac] as the first ffmpeg pass writes it, if it does *)
  v_trimmed : option string;
  (** the duration after [time=] in the output of the second pass;
      [None] when there is none or it is not a time *)
  v_time : option Q;
  (** the video as the encoder writes it, if it does *)
  v_encoded : option string
}.

(** [makeText] *)
Definition makeText (cfg : Config) (wrap : string -> list string) (data : FileData) : M unit :=
  let* textfile := of_option KeyError (fd_textfile data) in
  open_write textfile "" >>
  let* title := of_option KeyError (fd_title data) in
  let* filename := of_option KeyError (fd_filename data) in
  let outlines :=
    (["Title: " +:+ title +:+ Py.nl]
     ++ match fd_artist data with
        | Some artist => ["Artist: " +:+ artist +:+ Py.nl]
        | None => []
        end
     ++ ["Filename: " +:+ filename +:+ Py.nl]
     ++ match fd_comments data with
        | Some comments =>
            ("Comments:" +:+ Py.nl)
            :: (if Py.contains_char (ascii_of_nat 10) comments
                then map (fun l => l +:+ Py.nl) (Py.split Py.nl comments)
                else [comments])
        | None => []
        end)%list in
  let outstring :=
    String.concat ""
      (map (fun l => if (linewidth cfg <? String.length l)%nat
                     then String.concat Py.nl (wrap l) else l) outlines) in
  print [AStr "Wrapped lines:"] >>
  print [AStr outstring] >>
  open_write textfile outstring.

(** An external tool leaves a file behind, or does not. *)
Definition tool_writes (path : string) (data : option string) : M unit :=
  match data with
  | Some d => open_write path d
  | None => ret tt
  end.

(** [convertFile] *)
Definition convertFile (cfg : Config) (e : ConvEnv) (file : string) : M FileData :=
  print [AStr "Probing:"; AStr file; AStr "..."] >>
  let* filejson := of_option ValueError (v_probe e) in
  match pj_filename filejson with
  | None => print [AStr "Skipping due to no filename:"; AStr file] >> ret empty_filedata
  | Some fname =>
  match pj_title filejson with
  | None => print [AStr "Skipping due to no title:"; AStr file] >> ret empty_filedata
  | Some title =>
  match pj_duration filejson with
  | None => print [AStr "Skipping due to no duration:"; AStr file] >> ret empty_filedata
  | Some probed =>
      let* duration := of_option ValueError probed in
      if Qltb (maxlength cfg) duration
      then print [AStr "Skipping due to excessive length:"; AStr file] >> ret empty_filedata
      else
        match pj_comment filejson with
        | Some c => print [AStr "File comments:"] >> print [AStr c]
        | None => ret tt
        end >>
        let* s := get_self in
        let filecount := Py.str (filenumber s + 1) in
        let playfile := "media" +:+ filecount +:+ ".flv" in
        let textfile := "media" +:+ filecount +:+ ".txt" in
        makeText cfg (v_wrap e)
          {| fd_filename := Some fname; fd_title := Some title;
             fd_artist := pj_artist filejson; fd_comments := pj_comment filejson;
             fd_duration := Some duration;
             fd_playfile := Some playfile; fd_textfile := Some textfile |} >>
        print [AStr "Converting"; AStr file; AStr "to"; AStr playfile; AStr "..."] >>
        tool_writes "out.aac" (v_trimmed e) >>
        print [AExt] >>
        print [AExt] >>
        let* convertedduration := of_option IndexError (v_time e) in
        print [AStr "True duration is:"; ANum convertedduration] >>
        tool_writes playfile (v_encoded e) >>
        print [AExt] >>
        let* filesize := os_path_getsize playfile in
        if (filesize =? 0)%nat
        then print [AStr "Skipping due to conversion failure:"; AStr file] >> ret empty_filedata
        else
          os_remove file >>
          os_remove textfile >>
          ret {| fd_filename := Some fname; fd_title := Some title;
                 fd_artist := pj_artist filejson; fd_comments := pj_comment filejson;
                 fd_duration := Some convertedduration;
                 fd_playfile := Some playfile; fd_textfile := None |}
  end end end.

(** The environment of one call of [processZip]. *)
Record ZipEnv : Type := {
  (** the archive cannot be opened or extracted *)
  z_bad : bool;
  (** the files [os.walk] finds under [temppath] after extraction, as
      (directory, name) *)
  z_members : list (string * string);
  (** the index [random.choice] draws *)
  z_pick : nat;
  (** the contents of the file it draws *)
  z_data : string;
  (** whether the scratch directory can be listed and emptied *)
  z_cleanup_ok : bool
}.

(** [processZip] *)
Definition processZip (cfg : Config) (e : ZipEnv) (zf : string) : M string :=
  print [AStr "Unzipping:"; AStr zf] >>
  let candidates :=
    if z_bad e then []
    else
      map (fun m => Py.replace_char "\" "/" (path_join (fst m) (snd m)))
        (List.filter
           (fun m => Py.inb (Py.last (Py.split "." (Py.lower (snd m)))) (extensions cfg))
           (z_members e)) in
  (if z_bad e
   then print [AStr "Bad zip file:"; AStr zf] >> print [AStr "We'll skip this one..."]
   else for_each candidates (fun c => print [AStr "Candidate file:"; AStr c])) >>
  let* playfile :=
    match candidates with
    | [] => ret ""
    | c0 :: _ =>
        let choice := nth (z_pick e mod length candidates) candidates c0 in
        let playfile := Py.lower (Py.last (Py.split "/" choice)) in
        open_write playfile (z_data e) >> ret playfile
    end in
  (if z_cleanup_ok e then ret tt else raise FileNotFoundError) >>
  os_remove zf >>
  ret playfile.

(** [while sourcefile.endswith('.zip'): sourcefile = self.processZip(sourcefile)] *)
Fixpoint unzip_nested (cfg : Config) (zs : list ZipEnv) (sourcefile : string) : M string :=
  if Py.endswith sourcefile ".zip"
  then match zs with
       | [] => spin
       | z :: zs' =>
           let* sourcefile := processZip cfg z sourcefile in
           unzip_nested cfg zs' sourcefile
       end
  else ret sourcefile.

(** The environment of one call of [processFile]. *)
Record ProcEnv : Type := {
  (** [time.time()] on entry and after the download block *)
  p_start : Q;
  p_end : Q;
  (** [urllib.parse.quote] *)
  p_quote : string -> string;
  (** the body served for the URL; [None] when the request fails *)
  p_response : option string;
  (** one entry per archive that is opened *)
  p_zips : list ZipEnv;
  p_conv : ConvEnv;
  (** whether the media directory accepts the copy of the video *)
  p_copy_ok : bool
}.

Definition dashes : string :=
  "------------------------------------------------------------".

(** [processFile] *)
Definition processFile (cfg : Config) (e : ProcEnv) (file : string) : M Z :=
  let processstart := p_start e in
  let filename := Py.lower (Py.last (Py.split "/" file)) in
  print [AStr "Filename:"; AStr filename] >>
  let parts := Py.split "://" file in
  let* protocol := of_option IndexError (parts !! 0%nat) in
  let* urlstring := of_option IndexError (parts !! 1%nat) in
  let newfile := protocol +:+ "://" +:+ p_quote e urlstring in
  print [AStr "Parsed:"; AStr newfile] >>
  try_except
    (let* r := of_option URLError (p_response e) in
     print [AStr "Opening URL:"; AStr file] >>
     open_write filename "" >>
     print [AStr "Downloading:"; AStr filename] >>
     open_write filename r >>
     let* sourcefile := unzip_nested cfg (p_zips e) filename in
     if bool_decide (sourcefile = "") then ret 0
     else
       let* filedata := convertFile cfg (p_conv e) sourcefile in
       match fd_playfile filedata with
       | None => os_remove sourcefile >> ret 0
       | Some playfile =>
           print [AStr "Queueing:"; AStr playfile] >>
           shutil_copy (p_copy_ok e) playfile (mediapath cfg +:+ "/" +:+ playfile) >>
           modify_self (fun s => set_filenumber (filenumber s + 1) s) >>
           let* s := get_self in
           let playlistfile :=
             mediapath cfg +:+ "/playlist" +:+ Py.str (filenumber s) +:+ ".txt" in
           open_write playlistfile
             ("ffconcat version 1.0" +:+ Py.nl
              +:+ "file " +:+ playfile +:+ Py.nl
              +:+ "file playlist" +:+ Py.str (filenumber s + 1) +:+ ".txt" +:+ Py.nl) >>
           os_remove playfile >>
           let* duration := of_option KeyError (fd_duration filedata) in
           add_gas duration >>
           let processend := p_end e in
           let processtook := (processend - processstart)%Q in
           let* ratio := py_div duration processtook in
           print [AStr "File processing took"; ANum processtook;
                  AStr "seconds, ran at"; ANum ratio; AStr "x..."] >>
           modify_self (tune cfg ratio) >>
           let* s := get_self in
           let* name := of_option IndexError (py_index (qualitypresets cfg) (preset s)) in
           print [AStr "Quality preset is now:"; AStr name] >>
           print [AStr "CRF is now:"; AInt (crf s)] >>
           ret 1
       end)
    (fun ex =>
       print [AStr "Failed to obtain or process file:"; AStr filename] >>
       print [AStr dashes] >>
       emit (Traceback ex) >>
       print [AStr dashes] >>
       ret 0).

(** ** The segment chain and the cache *)

(** The three lines of a chain file. *)
Definition chain_text (asset next : string) : string :=
  "ffconcat version 1.0" +:+ Py.nl
  +:+ "file " +:+ asset +:+ Py.nl
  +:+ "file " +:+ next +:+ Py.nl.

(** [updateStartup] *)
Definition updateStartup (cfg : Config) : M unit :=
  let* filelist := glob (mediapath cfg) "playlist" ".txt" in
  let filelist := sort_natural filelist in
  match filelist with
  | [] => raise IndexError
  | _ :: filelist =>
      try_except
        (match filelist with
         | [] => raise IndexError
         | newfile :: _ =>
             let newplaylist := Py.last (Py.split "/" newfile) in
             print [AStr "Updating playlist0.txt to start at"; AStr newplaylist; AStr "..."] >>
             open_write "/media/playlist0.txt" (chain_text "startup.flv" newplaylist)
         end)
        (fun _ => ret tt)
  end.

(** The environment of one call of [cleanCache]. *)
Record CleanEnv : Type := {
  (** [time.time()] *)
  c_now : Q;
  (** [os.stat(path).st_mtime] *)
  c_mtime : string -> Q;
  (** [shutil.disk_usage(mediapath)] as (used, total), for the files
      that exist at the time of the call *)
  c_usage : gmap string string -> Z * Z
}.

(** [os.stat(path)], of which only [st_mtime] is read *)
Definition os_stat_mtime (e : CleanEnv) (path : string) : M Q :=
  fun w =>
    match fs w !! norm path with
    | Some _ => (Ok (c_mtime e path), w)
    | None => (Raise FileNotFoundError, w)
    end.

Definition disk_usage (e : CleanEnv) : M (Z * Z) :=
  fun w => (Ok (c_usage e (fs w)), w).

(** [diskusage.used / diskusage.total] *)
Definition used_fraction (u : Z * Z) : M Q :=
  py_div (inject_Z (fst u)) (inject_Z (snd u)).

(** Removal of a segment: the video [item] and the chain file that
    carries the digits of its path. *)
Definition remove_segment (cfg : Config) (item : string) : M unit :=
  let* number := of_option ValueError (Py.int (Py.keep_digits item)) in
  os_remove (path_join (mediapath cfg) item) >>
  os_remove (path_join (mediapath cfg) ("playlist" +:+ Py.str number +:+ ".txt")).

(** The first loop of [cleanCache] *)
Definition age_pass (cfg : Config) (e : CleanEnv) : M unit :=
  let timeago := (c_now e - 5400)%Q in
  let* filelist := glob (mediapath cfg) "media" ".flv" in
  let filelist := sort_natural filelist in
  for_each filelist (fun file =>
    let* mtime := os_stat_mtime e (path_join (mediapath cfg) file) in
    if Qltb mtime timeago
    then print [AStr "Cleaning up:"; AStr file] >> remove_segment cfg file
    else ret tt).

(** [while (diskusage.used / diskusage.total) > 0.8: ...]. The result is
    [false] when the loop leaves [cleanCache] by its [return]. *)
Fixpoint usage_loop (cfg : Config) (e : CleanEnv) (filelist : list string)
    (diskusage : Z * Z) : M bool :=
  let* fraction := used_fraction diskusage in
  if Qltb 0.8 fraction
  then match filelist with
       | [] => ret false
       | item :: filelist =>
           print [AStr "Removing file to free up disk:"; AStr item] >>
           remove_segment cfg item >>
           let* diskusage := disk_usage e in
           usage_loop cfg e filelist diskusage
       end
  else ret true.

(** The second part of [cleanCache], from the second [glob] to the end
    of the [while] loop *)
Definition usage_pass (cfg : Config) (e : CleanEnv) : M bool :=
  let* filelist := glob (mediapath cfg) "media" ".flv" in
  let filelist := sort_natural filelist in
  let* diskusage := disk_usage e in
  let* fraction := used_fraction diskusage in
  let diskpercent := (fraction * 100)%Q in
  print [AStr "Disk usage:"; AInt (fst diskusage); AStr "of"; AInt (snd diskusage);
         AStr "("; ANum diskpercent; AStr "%)"] >>
  usage_loop cfg e filelist diskusage.

(** The last loop of [cleanCache] *)
Definition stray_sweep (cfg : Config) : M unit :=
  let* filelist := glob_cwd in
  for_each filelist (fun file =>
    let filename := Py.last (Py.split "/" file) in
    if Py.inb filename (manifest cfg) then ret tt
    else print [AStr "Removing errant temporary file:"; AStr filename] >> os_remove file).

(** [cleanCache] *)
Definition cleanCache (cfg : Config) (e : CleanEnv) : M unit :=
  age_pass cfg e >>
  let* finished := usage_pass cfg e in
  if finished then stray_sweep cfg else ret tt.

(** ** The buffer controller *)

(** One turn of the selection loop: the index [random.choice] draws and
    the environment of the [processFile] call that may follow. *)
Record Attempt : Type := {
  a_pick : nat;
  a_proc : ProcEnv
}.

(** [random.choice(lines)] *)
Definition random_choice (pick : nat) (lines : list string) : string :=
  nth (pick mod length lines) lines "".

(** [while not gotsong: ...] of [updatePlaylist] *)
Fixpoint select_loop (cfg : Config) (attempts : list Attempt) (inputlist : string) : M unit :=
  match attempts with
  | [] => spin
  | a :: attempts =>
      let lines := Py.split "\n" inputlist in
      let choice := random_choice (a_pick a) lines in
      let extension := Py.lower (Py.last (Py.split "." choice)) in
      if negb (Py.inb extension (extensions cfg))
      then select_loop cfg attempts inputlist
      else
        print [AStr "Selected:"; AStr choice] >>
        let* status := processFile cfg (a_proc a) choice in
        if (status =? 0)%Z
        then select_loop cfg attempts inputlist
        else ret tt
  end.

(** The environment of one production cycle. *)
Record CycleEnv : Type := {
  y_attempts : list Attempt;
  y_clean : CleanEnv
}.

(** [updatePlaylist] *)
Definition updatePlaylist (cfg : Config) (e : CycleEnv) (inputlist : string) : M unit :=
  select_loop cfg (y_attempts e) inputlist >>
  cleanCache cfg (y_clean e) >>
  updateStartup cfg.

(** The environment of one call of [playlistCheck]. *)
Record CheckEnv : Type := {
  (** the body served for [playlisturl]; [None] when the request fails *)
  k_response : option string;
  (** [hashlib.md5(buf).hexdigest()] *)
  k_md5 : string -> string;
  (** [time.time()] as [checkGas] reads it *)
  k_now : Q;
  k_cycle : CycleEnv
}.

(** [playlistCheck] *)
Definition playlistCheck (cfg : Config) (e : CheckEnv) : M unit :=
  let* buf := of_option URLError (k_response e) in
  let newhash := k_md5 e buf in
  let* s := get_self in
  if negb (bool_decide (newhash = listhash s))
  then
    print [AStr "Remote playlist updated!"] >>
    modify_self (set_listhash newhash) >>
    updatePlaylist cfg (k_cycle e) (bytes_repr buf)
  else
    let* level := checkGas (k_now e) in
    if Qltb level (gastanklimit cfg)
    then
      let* s := get_self in
      print [AStr "Filling up gas tank! ("; ANum (gastank s); AStr " of ";
             ANum (gastanklimit cfg); AStr " seconds ready...)"] >>
      updatePlaylist cfg (k_cycle e) (bytes_repr buf)
    else
      let* s := get_self in
      print [AStr "Gas tank is at "; ANum (gastank s); AStr " seconds, so wait..."] >>
      time_sleep (gastank s - gastanklimit cfg)%Q.

(** [sanityCheck], with the body served for [startupvideo] ([None] when
    the request fails) *)
Definition sanityCheck (cfg : Config) (startup : option string) : M unit :=
  let* present := os_path_exists (path_join (mediapath cfg) "playlist0.txt") in
  (if present then ret tt
   else
     print [AStr "Playlist sanity check failed. Fixing..."] >>
     open_write "/media/playlist0.txt" (chain_text "startup.flv" "playlist1.txt") >>
     open_write "/media/playlist1.txt" (chain_text "startup.flv" "playlist0.txt") >>
     modify_self (set_filenumber 0)) >>
  let* present := os_path_exists (path_join (mediapath cfg) "startup.flv") in
  if present then ret tt
  else
    print [AStr "Startup video sanity check failed. Fixing..."] >>
    let* r := of_option URLError startup in
    print [AStr "Opening URL:"; AStr (startupvideo cfg)] >>
    open_write "/media/startup.flv" "" >>
    print [AStr "Downloading:"; AStr "/media/startup.flv"] >>
    open_write "/media/startup.flv" r >>
    modify_self (set_filenumber 0).

(** One turn of the loop of [run] *)
Record TurnEnv : Type := {
  t_startup : option string;
  t_check : CheckEnv
}.

(** [while 1: self.sanityCheck(); self.playlistCheck()] *)
Fixpoint run_loop (cfg : Config) (turns : list TurnEnv) : M unit :=
  match turns with
  | [] => spin
  | t :: turns =>
      sanityCheck cfg (t_startup t) >>
      playlistCheck cfg (t_check t) >>
      run_loop cfg turns
  end.

(** [run], with the reading of [time.time()] in [initRun] *)
Definition run (cfg : Config) (now : Q) (turns : list TurnEnv) : M unit :=
  initRun cfg now >> run_loop cfg turns.

(** ** Vocabulary of the properties *)

(** The bounds of the quality state. *)
Definition in_bounds (cfg : Config) (s : State) : Prop :=
  (mincrf cfg <= crf s <= maxcrf cfg)%Z /\ (0 <= preset s <= 8)%Z.

(** [wp m Q w]: running [m] from [w] ends in a result and a world that
    satisfy [Q]. *)
Definition wp {A} (m : M A) (Q : Res A -> World -> Prop) (w : World) : Prop :=
  Q (m w).1 (m w).2.

(** What a computation may do to the world: whether it leaves [self] as
    it is ([fp_frozen]), which paths it may create, overwrite or remove,
    and which events it may emit. *)
Record Footprint : Type := {
  fp_frozen : bool;
  fp_touch : string -> Prop;
  fp_emit : Event -> Prop
}.

Definition fp_self (F : Footprint) (s s' : State) : Prop :=
  if fp_frozen F then s = s' else True.

Definition within (F : Footprint) (w w' : World) : Prop :=
  fp_self F (self w) (self w')
  /\ (forall p, ~ fp_touch F p -> fs w' !! p = fs w !! p)
  /\ exists evs, out w' = (out w ++ evs)%list /\ Forall (fp_emit F) evs.

(** [m] stays within [F] from every world. *)
Definition stays {A} (F : Footprint) (m : M A) : Prop :=
  forall w, within F w (m w).2.

Definition fp_le (F G : Footprint) : Prop :=
  (forall s s', fp_self F s s' -> fp_self G s s')
  /\ (forall p, fp_touch F p -> fp_touch G p)
  /\ (forall ev, fp_emit F ev -> fp_emit G ev).

(** Sort keys that hold a [str] and an [int] in turn. *)
Inductive alternating : bool -> list KeyElt -> Prop :=
  | alt_nil b : alternating b []
  | alt_str s k : alternating true k -> alternating false (KStr s :: k)
  | alt_int n k : alternating false k -> alternating true (KInt n :: k).

(** Stable insertion sort of numbers, the numeric counterpart of
    [sort_natural]. *)
Fixpoint insert_Z (x : Z) (l : list Z) : list Z :=
  match l with
  | [] => [x]
  | y :: l' => if (y <? x)%Z then y :: insert_Z x l' else x :: y :: l'
  end.

Fixpoint sort_Z (l : list Z) : list Z :=
  match l with
  | [] => []
  | x :: l' => insert_Z x (sort_Z l')
  end.

(** A name without a directory part. Working files have such names. *)
Definition no_slash (s : string) : Prop := Py.contains_char "/" s = false.

(** Every event except the report of a selection. *)
Definition quiet (ev : Event) : Prop :=
  forall c, ev <> Print [AStr "Selected:"; AStr c].

(** The footprint of the steps that work in the working directory only:
    [self] is left as it is, only files without a directory part are
    written or removed, no selection is reported. *)
Definition cwd_quiet : Footprint :=
  {| fp_frozen := true; fp_touch := no_slash; fp_emit := quiet |}.

(** Names of the files of segment [n]. *)
Definition segment_name (n : Z) : string := "media" +:+ Py.str n +:+ ".flv".
Definition chain_name (n : Z) : string := "playlist" +:+ Py.str n +:+ ".txt".

(** What the environment of [convertFile] must provide for a conversion
    to yield a video of duration [d]: a probe with a file name, a title
    and a duration within [maxlength], a duration after trimming, and an
    encoder output that is not the empty file. *)
Definition accepted (cfg : Config) (c : ConvEnv) (d : Q) : Prop :=
  exists j d0,
    v_probe c = Some j
    /\ is_Some (pj_filename j)
    /\ is_Some (pj_title j)
    /\ pj_duration j = Some (Some d0)
    /\ (d0 <= maxlength cfg)%Q
    /\ v_time c = Some d
    /\ v_encoded c <> Some "".

(** [self] after a segment of duration [d] is queued: the file number
    is incremented and [d] is added to the gas tank. *)
Definition queued (d : Q) (s : State) : State :=
  set_gastank (gastank s + d)%Q (set_filenumber (filenumber s + 1) s).

(** The report that precedes the copy of the video. *)
Definition announces_copy (ev : Event) : Prop :=
  exists playfile, ev = Print [AStr "Queueing:"; AStr playfile].

(** The footprint of the steps of [processFile] that come before the
    conversion: as [cwd_quiet], and the copy is not announced. *)
Definition prelude : Footprint :=
  {| fp_frozen := true; fp_touch := no_slash;
     fp_emit := fun ev => quiet ev /\ ~ announces_copy ev |}.

(** How a call of [processFile] from [w] ends: either nothing was
    queued, it has stayed in the working directory and left [self] as
    it was, and it has returned 0 unless it ended before the conversion
    with an [IndexError] or in the loop over nested archives; or the
    conversion was accepted, the video was copied to the media directory
    with its chain file, the file number and the gas tank were updated,
    and the quality state was retuned unless the elapsed time was
    zero. *)
Inductive Outcome (cfg : Config) (e : ProcEnv) (w : World) (r : Res Z) (w' : World) : Prop :=
  | NotProduced :
      within cwd_quiet w w' ->
      r = Ok 0 \/ (r = Raise IndexError \/ r = Spin) /\ within prelude w w' ->
      Outcome cfg e w r w'
  | Produced (d : Q) (w1 : World) (data : string) :
      let n := (filenumber (self w) + 1)%Z in
      let took := (p_end e - p_start e)%Q in
      accepted cfg (p_conv e) d ->
      p_copy_ok e = true ->
      within cwd_quiet w w1 ->
      fs w1 !! segment_name n = Some data ->
      fs w' = delete (segment_name n)
                (<[norm (mediapath cfg +:+ "/playlist" +:+ Py.str n +:+ ".txt") :=
                     chain_text (segment_name n) (chain_name (n + 1))]>
                   (<[norm (mediapath cfg +:+ "/" +:+ segment_name n) := data]> (fs w1))) ->
      (r = Ok 1 /\ ~ (took == 0)%Q /\ self w' = tune cfg (d / took) (queued d (self w))
       \/ r = Ok 0 /\ (took == 0)%Q /\ self w' = queued d (self w)
       \/ r = Ok 0 /\ ~ (took == 0)%Q /\ self w' = tune cfg (d / took) (queued d (self w))
          /\ py_index (qualitypresets cfg) (preset (self w')) = None) ->
      Outcome cfg e w r w'.






(** The reasons for which [convertFile] discards a candidate after the
    probe: no title, no duration, a duration above half the gas tank
    limit, an encoder output of size zero. *)
Inductive rejected (cfg : Config) (c : ConvEnv) : Prop :=
  | no_title j :
      v_probe c = Some j -> pj_title j = None -> rejected cfg c
  | no_duration j :
      v_probe c = Some j -> pj_duration j = None -> rejected cfg c
  | too_long j d0 :
      v_probe c = Some j -> pj_duration j = Some (Some d0) ->
      (gastanklimit cfg / 2 < d0)%Q -> rejected cfg c
  | empty_output :
      v_encoded c = Some "" -> rejected cfg c.

(** The four attributes that only a production may change. *)
Definition same_control (s s' : State) : Prop :=
  filenumber s' = filenumber s /\ gastank s' = gastank s
  /\ crf s' = crf s /\ preset s' = preset s.

(** ** A worked example: one remote list, one candidate, one world *)

Definition example_manifest : string :=
  "font.ttf" +:+ Py.nl +:+ "djmarinara.py" +:+ Py.nl +:+ "manifest".

Definition example_config : Config := main_config example_manifest.

(** A probe of a two-minute song and an encoder that delivers. *)
Definition example_conv : ConvEnv :=
  {| v_probe := Some {| pj_filename := Some "a.mp3"; pj_title := Some "A";
                        pj_artist := None; pj_comment := None;
                        pj_duration := Some (Some 120%Q) |};
     v_wrap := fun l => [l];
     v_trimmed := Some "aac";
     v_time := Some 118%Q;
     v_encoded := Some "flv" |}.

(** A download that succeeds and a render that takes 30 seconds. *)
Definition example_proc : ProcEnv :=
  {| p_start := 100; p_end := 130; p_quote := fun s => s;
     p_response := Some "mp3"; p_zips := []; p_conv := example_conv;
     p_copy_ok := true |}.


(** The same, with an encoder that leaves an empty file. *)
Definition example_proc_empty : ProcEnv :=
  {| p_start := 100; p_end := 130; p_quote := fun s => s;
     p_response := Some "mp3"; p_zips := [];
     p_conv := {| v_probe := v_probe example_conv; v_wrap := v_wrap example_conv;
                  v_trimmed := v_trimmed example_conv; v_time := v_time example_conv;
                  v_encoded := Some "" |};
     p_copy_ok := true |}.

(** The media directory after [sanityCheck], a font and a stray file in
    the working directory. *)
Definition example_world : World :=
  {| self := init_state;
     fs := {[ "font.ttf" := "font";
              "junk" := "junk";
              "/media/startup.flv" := "startup";
              "/media/playlist0.txt" := chain_text "startup.flv" "playlist1.txt";
              "/media/playlist1.txt" := chain_text "startup.flv" "playlist0.txt" ]};
     out := [] |}.

Definition example_url : string := "http://x/a.mp3".




(** A draw of the line of index [pick], in an environment in which
    processing succeeds. *)
Definition draw (pick : nat) : Attempt := {| a_pick := pick; a_proc := example_proc |}.

(** The two readings [checkGas] prints at time [now]. *)
Definition readings (now : Q) (s : State) : list Event :=
  [Print [AStr "Elapsed since start:"; ANum (now - starttime s)%Q];
   Print [AStr "Gas used this round:"; ANum (now - starttime s - elapsedtime s)%Q]].

(** The state [checkGas] leaves at time [now]. *)
Definition ticked (now : Q) (s : State) : State :=
  set_elapsedtime (now - starttime s)%Q
    (set_gastank (gastank s - (now - starttime s - elapsedtime s))%Q s).

(** A check at time 10 of a list whose hash is the stored one. *)
Definition example_check : CheckEnv :=
  {| k_response := Some "http://x/a.mp3"; k_md5 := fun _ => ""; k_now := 10;
     k_cycle := {| y_attempts := [];
                   y_clean := {| c_now := 10; c_mtime := fun _ => 0%Q;
                                 c_usage := fun _ => (0, 1)%Z |} |} |}.


(** A cleaning at a time when every file is older than 90 minutes, on a
    disk that is half full. *)
Definition late_clean : CleanEnv :=
  {| c_now := 10000; c_mtime := fun _ => 0%Q; c_usage := fun _ => (1, 2)%Z |}.

(** A media directory with one segment and its chain file. *)
Definition one_segment_world : World :=
  {| self := init_state;
     fs := {[ "font.ttf" := "font";
              "/media/startup.flv" := "startup";
              "/media/playlist0.txt" := chain_text "startup.flv" "playlist1.txt";
              "/media/media1.flv" := "flv";
              "/media/playlist1.txt" := chain_text "media1.flv" "playlist2.txt" ]};
     out := [] |}.

(** The paths [glob] finds for [dir/pre*suf] among the files [f]. *)
Definition matching (dir pre suf : string) (f : gmap string string) : list string :=
  List.filter (glob_test dir pre suf) (map fst (map_to_list f)).

(** The files of segment [n] in the media directory of [main.py]. *)
Definition segment_path (n : Z) : string := "/media/" +:+ segment_name n.
Definition chain_path (n : Z) : string := "/media/" +:+ chain_name n.

(** [diskusage.used / diskusage.total] for the files [f]. *)
Definition usage_of (e : CleanEnv) (f : gmap string string) : Q :=
  (inject_Z (c_usage e f).1 / inject_Z (c_usage e f).2)%Q.

Definition over_threshold (e : CleanEnv) (f : gmap string string) : Prop :=
  (0.8 < usage_of e f)%Q.

(** The files [f] without the video and the chain file of segment [n]. *)
Definition remove_pair (f : gmap string string) (n : Z) : gmap string string :=
  delete (chain_path n) (delete (segment_path n) f).

(** The files [f] without the segments [ns]. *)
Definition evicted (ns : list Z) (f : gmap string string) : gmap string string :=
  foldl remove_pair f ns.


Definition usage_report (u : Z * Z) : Event :=
  Print [AStr "Disk usage:"; AInt u.1; AStr "of"; AInt u.2;
         AStr "("; ANum (inject_Z u.1 / inject_Z u.2 * 100)%Q; AStr "%)"].

(** A media directory with the segments 2 and 10 and their chain files. *)
Definition two_segment_world : World :=
  {| self := init_state;
     fs := {[ "font.ttf" := "font";
              "/media/startup.flv" := "startup";
              "/media/playlist0.txt" := chain_text "startup.flv" "playlist2.txt";
              "/media/media10.flv" := "flv";
              "/media/playlist10.txt" := chain_text "media10.flv" "playlist11.txt";
              "/media/media2.flv" := "flv";
              "/media/playlist2.txt" := chain_text "media2.flv" "playlist10.txt" ]};
     out := [] |}.


(** The footprint of the steps that leave [self] as it is, whatever
    they write and print. *)
Definition frozen : Footprint :=
  {| fp_frozen := true; fp_touch := fun _ => True; fp_emit := fun _ => True |}.

(** A name made of a text, a number and a text. *)
Definition numbered (pre suf : string) (n : Z) : string := pre +:+ Py.str n +:+ suf.

(** A media directory without any file, and nothing else. *)
Definition empty_world : World := {| self := init_state; fs := ∅; out := [] |}.


(** A turn in which the remote list cannot be fetched. *)
Definition offline_turn : TurnEnv :=
  {| t_startup := None;
     t_check := {| k_response := None; k_md5 := fun _ => ""; k_now := 10;
                   k_cycle := k_cycle example_check |} |}.

(** The footprint of [updateStartup]: [self] is left as it is and the
    entry file is the only file written. *)
Definition entry_only : Footprint :=
  {| fp_frozen := true; fp_touch := fun p => p = "/media/playlist0.txt";
     fp_emit := fun _ => True |}.

(** A disk that is 90% full whatever is removed. *)
Definition full_clean : CleanEnv :=
  {| c_now := 10; c_mtime := fun _ => 0%Q; c_usage := fun _ => (9, 10)%Z |}.


(** Whether the age pass removes segment [n]: its video was last
    written more than 90 minutes ago. *)
Definition expired (e : CleanEnv) (n : Z) : bool :=
  Qltb (c_mtime e (segment_path n)) (c_now e - 5400).

Definition cleanup_report (n : Z) : Event :=
  Print [AStr "Cleaning up:"; AStr (segment_path n)].

(** A cleaning at time 10000 for which segment 2 is old and every other
    file is new. *)
Definition aging_clean : CleanEnv :=
  {| c_now := 10000;
     c_mtime := fun p => if bool_decide (p = "/media/media2.flv") then 0%Q else 9000%Q;
     c_usage := fun _ => (1, 2)%Z |}.

(** What happens to the gas tank: a reading by [checkGas] at a time, or
    the queueing of a segment of a duration by [processFile]. *)
Inductive GasEvent : Type :=
  | Reading (t : Q)
  | Queueing (d : Q).

Definition gas_event (a : GasEvent) : M unit :=
  match a with
  | Reading t => checkGas t >> ret tt
  | Queueing d => add_gas d
  end.

(** The seconds queued by a list of events. *)
Fixpoint queued_total (evs : list GasEvent) : Q :=
  match evs with
  | [] => 0
  | Reading _ :: evs' => queued_total evs'
  | Queueing d :: evs' => d + queued_total evs'
  end.


(** [m] keeps the property [P] of [self], however it ends. *)
Definition keeps {A} (P : State -> Prop) (m : M A) : Prop :=
  forall w, P (self w) -> P (self (m w).2).

(** A byte that [repr] shows as it is inside single quotes. *)
Definition plain_char (c : ascii) : bool :=
  (32 <=? nat_of_ascii c)%nat && (nat_of_ascii c <? 127)%nat
  && negb (Ascii.eqb c "'") && negb (Ascii.eqb c "\").

Fixpoint plain (s : string) : bool :=
  match s with
  | "" => true
  | String c s' => plain_char c && plain s'
  end.

(** The lines of a list as [updatePlaylist] gets them from
    [playlistCheck]: [cur] is what comes before the first line, and a
    quote closes the last. *)
Fixpoint quoted_lines (cur : string) (lines : list string) : list string :=
  match lines with
  | [] => [cur +:+ "'"]
  | l :: ls =>
      match ls with
      | [] => [cur +:+ l +:+ "'"]
      | _ :: _ => (cur +:+ l) :: quoted_lines "" ls
      end
  end.

(** * Properties *)

(** ** Comparisons and the clamp *)

Lemma Qltb_lt (x y : Q) : Qltb x y = true <-> (x < y)%Q.
Proof.
  unfold Qltb. rewrite negb_true_iff. split.
  - intros H. apply Qnot_le_lt. intros Hle. apply Qle_bool_iff in Hle. congruence.
  - intros H. destruct (Qle_bool y x) eqn:E; [|done].
    apply Qle_bool_iff in E. exfalso. eapply Qlt_not_le; eauto.
Qed.

Lemma Qltb_ge (x y : Q) : Qltb x y = false <-> (y <= x)%Q.
Proof. unfold Qltb. rewrite negb_false_iff. apply Qle_bool_iff. Qed.

Lemma clamp_bounds n lo hi : (lo <= hi)%Z -> (lo <= clamp n lo hi <= hi)%Z.
Proof. unfold clamp. lia. Qed.

Lemma clamp_id n lo hi : (lo <= n <= hi)%Z -> clamp n lo hi = n.
Proof. unfold clamp. lia. Qed.

Ltac bool_hyps :=
  repeat match goal with
    | H : _ && _ = true |- _ => apply andb_prop in H as [? ?]
    | H : _ && _ = false |- _ => apply andb_false_iff in H
    | H : (_ <? _)%Z = true |- _ => apply Z.ltb_lt in H
    | H : (_ <? _)%Z = false |- _ => apply Z.ltb_ge in H
    | H : Qltb _ _ = true |- _ => apply Qltb_lt in H
    | H : Qltb _ _ = false |- _ => apply Qltb_ge in H
    end.

Lemma tune_in_bounds cfg ratio s :
  (mincrf cfg <= maxcrf cfg)%Z -> (0 <= preset s <= 8)%Z ->
  in_bounds cfg (tune cfg ratio s).
Proof.
  intros Hc Hp. unfold in_bounds, tune.
  repeat case_match; simpl in *; bool_hyps;
    (split; [apply clamp_bounds; lia | lia]).
Qed.

Lemma tune_frame cfg ratio s :
  let s' := tune cfg ratio s in
  listhash s' = listhash s /\ gastank s' = gastank s /\ filenumber s' = filenumber s
  /\ elapsedtime s' = elapsedtime s /\ starttime s' = starttime s.
Proof. unfold tune. repeat case_match; simpl; auto. Qed.



(** ** Reasoning about computations *)

Lemma wp_bind {A B} (m : M A) (k : A -> M B) Q w :
  wp m (fun r w' =>
          match r with
          | Ok a => wp (k a) Q w'
          | Raise e => Q (Raise e) w'
          | Spin => Q Spin w'
          end) w ->
  wp (bind m k) Q w.
Proof. unfold wp, bind. destruct (m w) as [[a|e|] w']; simpl; auto. Qed.

Lemma wp_try {A} (m : M A) (h : Exn -> M A) Q w :
  wp m (fun r w' =>
          match r with
          | Ok a => Q (Ok a) w'
          | Raise e => wp (h e) Q w'
          | Spin => Q Spin w'
          end) w ->
  wp (try_except m h) Q w.
Proof. unfold wp, try_except. destruct (m w) as [[a|e|] w']; simpl; auto. Qed.

Lemma wp_mono {A} (m : M A) (Q Q' : Res A -> World -> Prop) w :
  (forall r w', Q r w' -> Q' r w') -> wp m Q w -> wp m Q' w.
Proof. unfold wp. auto. Qed.

Lemma within_mono F G w w' : fp_le F G -> within F w w' -> within G w w'.
Proof.
  intros (Hs & Ht & He) (H1 & H2 & evs & H3 & H4). split; [auto|]. split.
  - intros p Hp. apply H2. intros ?. apply Hp. auto.
  - exists evs. split; [done|]. eapply Forall_impl; eauto.
Qed.


Section Footprints.
Context (F : Footprint).

Lemma fp_self_refl s : fp_self F s s.
Proof. unfold fp_self. by destruct (fp_frozen F). Qed.

Lemma fp_self_trans s1 s2 s3 : fp_self F s1 s2 -> fp_self F s2 s3 -> fp_self F s1 s3.
Proof. unfold fp_self. destruct (fp_frozen F); [congruence | done]. Qed.

Lemma within_refl w : within F w w.
Proof.
  split; [apply fp_self_refl|]. split; [done|].
  exists []. rewrite app_nil_r. auto.
Qed.

Lemma within_trans w1 w2 w3 : within F w1 w2 -> within F w2 w3 -> within F w1 w3.
Proof.
  intros (H1 & H2 & e1 & H3 & H4) (K1 & K2 & e2 & K3 & K4).
  split; [eapply fp_self_trans; eauto|]. split.
  - intros p Hp. rewrite K2, H2; auto.
  - exists (e1 ++ e2)%list. rewrite K3, H3, app_assoc. split; [done|].
    apply Forall_app; auto.
Qed.

Lemma stays_ret {A} (a : A) : stays F (ret a).
Proof. intros w. apply within_refl. Qed.

Lemma stays_raise {A} e : stays F (@raise A e).
Proof. intros w. apply within_refl. Qed.

Lemma stays_spin {A} : stays F (@spin A).
Proof. intros w. apply within_refl. Qed.

Lemma stays_bind {A B} (m : M A) (k : A -> M B) :
  stays F m -> (forall a, stays F (k a)) -> stays F (bind m k).
Proof.
  intros Hm Hk w. unfold bind. specialize (Hm w).
  destruct (m w) as [[a|e|] w']; simpl in *; auto.
  eapply within_trans; [exact Hm | apply Hk].
Qed.

Lemma stays_try {A} (m : M A) (h : Exn -> M A) :
  stays F m -> (forall e, stays F (h e)) -> stays F (try_except m h).
Proof.
  intros Hm Hh w. unfold try_except. specialize (Hm w).
  destruct (m w) as [[a|e|] w']; simpl in *; auto.
  eapply within_trans; [exact Hm | apply Hh].
Qed.

Lemma stays_of_option {A} e (o : option A) : stays F (of_option e o).
Proof. destruct o; [apply stays_ret | apply stays_raise]. Qed.

Lemma stays_bind_of_option {A B} e (o : option A) (k : A -> M B) :
  (forall a, o = Some a -> stays F (k a)) -> stays F (bind (of_option e o) k).
Proof.
  intros H. destruct o as [a|]; simpl.
  - intros w. apply (H a eq_refl).
  - intros w. apply within_refl.
Qed.

Lemma stays_for_each {A} (l : list A) (body : A -> M unit) :
  (forall x, x ∈ l -> stays F (body x)) -> stays F (for_each l body).
Proof.
  induction l as [|x l IH]; intros H; simpl; [apply stays_ret|].
  apply stays_bind; [apply H; left | intros _; apply IH].
  intros y Hy. apply H. by right.
Qed.

Lemma stays_get_self : stays F get_self.
Proof. intros w. apply within_refl. Qed.

Lemma stays_get_fs : stays F get_fs.
Proof. intros w. apply within_refl. Qed.

Lemma stays_emit ev : fp_emit F ev -> stays F (emit ev).
Proof.
  intros H w. split; [apply fp_self_refl|]. split; [done|].
  exists [ev]. split; [done|]. by constructor.
Qed.

Lemma stays_print args : fp_emit F (Print args) -> stays F (print args).
Proof. apply stays_emit. Qed.

Lemma stays_time_sleep d : fp_emit F (Sleep d) -> stays F (time_sleep d).
Proof.
  intros H. unfold time_sleep. destruct (Qle_bool 0 d);
    [by apply stays_emit | apply stays_raise].
Qed.

Lemma stays_modify_self f :
  (forall s, fp_self F s (f s)) -> stays F (modify_self f).
Proof.
  intros H w. split; [apply H|]. split; [done|].
  exists []. simpl. rewrite app_nil_r. auto.
Qed.

Lemma within_with_fs w f :
  (forall p, ~ fp_touch F p -> f !! p = fs w !! p) -> within F w (with_fs f w).
Proof.
  intros H. split; [apply fp_self_refl|]. split; [done|].
  exists []. simpl. rewrite app_nil_r. auto.
Qed.

Lemma stays_open_write path data :
  fp_touch F (norm path) -> stays F (open_write path data).
Proof.
  intros H w. unfold open_write. case_bool_decide; [apply within_refl|].
  apply within_with_fs. intros p Hp. apply lookup_insert_ne. by intros <-.
Qed.

Lemma stays_os_remove path :
  fp_touch F (norm path) -> stays F (os_remove path).
Proof.
  intros H w. unfold os_remove. destruct (fs w !! norm path); [|apply within_refl].
  apply within_with_fs. intros p Hp. apply lookup_delete_ne. by intros <-.
Qed.

Lemma stays_os_path_exists path : stays F (os_path_exists path).
Proof. intros w. apply within_refl. Qed.

Lemma stays_os_path_getsize path : stays F (os_path_getsize path).
Proof.
  intros w. unfold os_path_getsize. destruct (fs w !! norm path); apply within_refl.
Qed.

Lemma stays_shutil_copy ok src dst :
  fp_touch F (norm dst) -> stays F (shutil_copy ok src dst).
Proof.
  intros H w. unfold shutil_copy. destruct (fs w !! norm src); [|apply within_refl].
  destruct ok; [by apply stays_open_write | apply within_refl].
Qed.

Lemma stays_glob dir pre suf : stays F (glob dir pre suf).
Proof. intros w. apply within_refl. Qed.

Lemma stays_glob_cwd : stays F glob_cwd.
Proof. intros w. apply within_refl. Qed.

Lemma stays_py_div a b : stays F (py_div a b).
Proof. unfold py_div. destruct (Qeq_bool b 0); [apply stays_raise | apply stays_ret]. Qed.

Lemma stays_tool_writes path data :
  fp_touch F (norm path) -> stays F (tool_writes path data).
Proof. intros H. destruct data; [by apply stays_open_write | apply stays_ret]. Qed.
End Footprints.
(** ** Strings *)

Lemma app_nil (b : string) : "" +:+ b = b.
Proof. reflexivity. Qed.

Lemma app_cons c (a b : string) : String c a +:+ b = String c (a +:+ b).
Proof. reflexivity. Qed.

Lemma app_String_assoc (a : string) c (b : string) :
  (a +:+ String c "") +:+ b = a +:+ String c b.
Proof. induction a as [|x a IH]; [done|]. by rewrite !app_cons, IH. Qed.

Lemma app_empty_r (a : string) : a +:+ "" = a.
Proof. induction a as [|x a IH]; [done|]. by rewrite app_cons, IH. Qed.

Lemma app_assoc_s (a b c : string) : (a +:+ b) +:+ c = a +:+ (b +:+ c).
Proof. induction a as [|x a IH]; [done|]. by rewrite !app_cons, IH. Qed.

Lemma keep_digits_app a b :
  Py.keep_digits (a +:+ b) = Py.keep_digits a +:+ Py.keep_digits b.
Proof.
  induction a as [|x a IH]; [done|]. rewrite app_cons. simpl.
  destruct (Py.is_digit x); by rewrite ?app_cons, IH.
Qed.

Lemma keep_digits_all s : Py.all_digits s = true -> Py.keep_digits s = s.
Proof.
  induction s as [|x s IH]; simpl; [done|].
  intros [Hx Hs]%andb_prop. rewrite Hx. by rewrite IH.
Qed.

Lemma keep_digits_none s : Py.no_digits s = true -> Py.keep_digits s = "".
Proof.
  induction s as [|x s IH]; simpl; [done|].
  intros [Hx Hs]%andb_prop. apply negb_true_iff in Hx. rewrite Hx. auto.
Qed.

Lemma all_digits_uint d : Py.all_digits (NilEmpty.string_of_uint d) = true.
Proof. induction d; simpl; auto. Qed.

Lemma str_nonneg n : (0 <= n)%Z ->
  exists d, d <> Decimal.Nil /\ Py.str n = NilEmpty.string_of_uint d /\ Z.of_uint d = n.
Proof.
  intros Hn. destruct n as [|p|p]; [| |lia].
  - exists (Decimal.D0 Decimal.Nil). done.
  - exists (Pos.to_uint p). split; [apply Unsigned.to_uint_nonnil|]. split.
    + unfold Py.str. simpl. unfold NilZero.string_of_uint.
      pose proof (Unsigned.to_uint_nonnil p). by destruct (Pos.to_uint p).
    + unfold Z.of_uint. by rewrite Unsigned.of_to.
Qed.

Lemma all_digits_str n : (0 <= n)%Z -> Py.all_digits (Py.str n) = true.
Proof. intros (d & _ & -> & _)%str_nonneg. apply all_digits_uint. Qed.

Lemma str_nonempty n : (0 <= n)%Z -> Py.str n <> "".
Proof.
  intros (d & Hd & -> & _)%str_nonneg. by destruct d.
Qed.

Lemma isdigit_str n : (0 <= n)%Z -> Py.isdigit (Py.str n) = true.
Proof.
  intros Hn. pose proof (all_digits_str n Hn). pose proof (str_nonempty n Hn).
  unfold Py.isdigit. by destruct (Py.str n).
Qed.

Lemma int_str n : (0 <= n)%Z -> Py.int (Py.str n) = Some n.
Proof.
  intros Hn. unfold Py.int. rewrite isdigit_str by done.
  destruct (str_nonneg n Hn) as (d & _ & -> & <-).
  by rewrite NilEmpty.usu.
Qed.

Lemma str_inj a b : (0 <= a)%Z -> (0 <= b)%Z -> Py.str a = Py.str b -> a = b.
Proof.
  intros Ha Hb H. apply (f_equal Py.int) in H.
  rewrite !int_str in H by done. congruence.
Qed.

Lemma isdigit_no_digits s : Py.no_digits s = true -> Py.isdigit s = false.
Proof.
  destruct s as [|c s]; [done|]. simpl.
  intros [Hc _]%andb_prop. apply negb_true_iff in Hc. by rewrite Hc.
Qed.

Lemma atoi_no_digits s : Py.no_digits s = true -> atoi s = KStr s.
Proof. intros H. unfold atoi. by rewrite isdigit_no_digits. Qed.

Lemma atoi_str n : (0 <= n)%Z -> atoi (Py.str n) = KInt n.
Proof. intros H. unfold atoi. by rewrite isdigit_str, int_str. Qed.

Lemma runs_go_text cur pre rest :
  Py.no_digits pre = true ->
  runs_go false cur (pre +:+ rest) = runs_go false (cur +:+ pre) rest.
Proof.
  revert cur. induction pre as [|c pre IH]; intros cur H.
  - by rewrite app_nil, app_empty_r.
  - simpl in H. apply andb_prop in H as [Hc H]. apply negb_true_iff in Hc.
    rewrite app_cons. simpl. rewrite Hc. simpl.
    rewrite IH by done. by rewrite app_String_assoc.
Qed.

Lemma runs_go_digits cur ds rest :
  Py.all_digits ds = true ->
  runs_go true cur (ds +:+ rest) = runs_go true (cur +:+ ds) rest.
Proof.
  revert cur. induction ds as [|c ds IH]; intros cur H.
  - by rewrite app_nil, app_empty_r.
  - simpl in H. apply andb_prop in H as [Hc H].
    rewrite app_cons. simpl. rewrite Hc. simpl.
    rewrite IH by done. by rewrite app_String_assoc.
Qed.

(** The runs of a name made of a text, a number and a text. *)
Lemma re_split_digits_name pre ds suf :
  Py.no_digits pre = true -> Py.all_digits ds = true -> ds <> "" ->
  Py.no_digits suf = true ->
  re_split_digits (pre +:+ ds +:+ suf) = [pre; ds; suf].
Proof.
  intros Hpre Hds Hne Hsuf. unfold re_split_digits.
  rewrite runs_go_text by done. rewrite app_nil.
  destruct ds as [|d ds]; [done|]. simpl in Hds. apply andb_prop in Hds as [Hd Hds].
  rewrite app_cons. simpl. rewrite Hd. simpl. f_equal.
  rewrite runs_go_digits by done. rewrite app_cons, app_nil.
  destruct suf as [|c suf]; [done|].
  simpl in Hsuf. apply andb_prop in Hsuf as [Hc Hsuf]. apply negb_true_iff in Hc.
  simpl. rewrite Hc. simpl. f_equal.
  rewrite <- (app_empty_r suf) at 1. rewrite runs_go_text by done.
  by rewrite app_cons, app_nil.
Qed.

Lemma naturalKeys_name pre n suf :
  Py.no_digits pre = true -> (0 <= n)%Z -> Py.no_digits suf = true ->
  naturalKeys (pre +:+ Py.str n +:+ suf) = [KStr pre; KInt n; KStr suf].
Proof.
  intros Hpre Hn Hsuf. unfold naturalKeys.
  rewrite re_split_digits_name; auto using all_digits_str, str_nonempty.
  cbn [map]. by rewrite (atoi_no_digits pre), (atoi_no_digits suf), atoi_str.
Qed.

(** Names that differ in their number only compare as their numbers. *)
Lemma natural_lt_name pre suf a b :
  Py.no_digits pre = true -> Py.no_digits suf = true -> (0 <= a)%Z -> (0 <= b)%Z ->
  natural_lt (pre +:+ Py.str a +:+ suf) (pre +:+ Py.str b +:+ suf) = (a <? b)%Z.
Proof.
  intros Hpre Hsuf Ha Hb. unfold natural_lt. rewrite !naturalKeys_name by done.
  simpl. rewrite bool_decide_eq_true_2 by done.
  case_bool_decide as E.
  - injection E as ->. rewrite bool_decide_eq_true_2 by done. simpl.
    symmetry. apply Z.ltb_irrefl.
  - done.
Qed.

Lemma key_lt_alternating b k1 k2 :
  alternating b k1 -> alternating b k2 -> is_Some (key_lt k1 k2).
Proof.
  intros H1. revert k2. induction H1; intros k2 H2; inversion H2; subst; simpl; eauto;
    case_bool_decide; eauto.
Qed.

Lemma is_digit_cases c :
  Py.is_digit c = true ->
  c ∈ ["0"%char; "1"%char; "2"%char; "3"%char; "4"%char;
       "5"%char; "6"%char; "7"%char; "8"%char; "9"%char].
Proof.
  destruct c as [[] [] [] [] [] [] [] []]; vm_compute; intros H; try discriminate H;
    repeat first [ apply list_elem_of_here | apply list_elem_of_further ].
Qed.

Lemma uint_of_string_digits s :
  Py.all_digits s = true -> is_Some (NilEmpty.uint_of_string s).
Proof.
  induction s as [|c s IH]; simpl; [eauto|].
  intros [Hc Hs]%andb_prop. destruct (IH Hs) as [d ->].
  apply is_digit_cases in Hc.
  repeat (apply elem_of_cons in Hc as [->|Hc]; [simpl; eauto|]).
  by apply elem_of_nil in Hc.
Qed.

Lemma atoi_digits s :
  Py.all_digits s = true -> s <> "" -> exists n, atoi s = KInt n.
Proof.
  intros Hs Hne. unfold atoi, Py.int.
  assert (Py.isdigit s = true) as -> by (by destruct s).
  destruct (uint_of_string_digits s Hs) as [d ->]. simpl. eauto.
Qed.

Lemma all_digits_snoc cur c :
  Py.all_digits cur = true -> Py.is_digit c = true ->
  Py.all_digits (cur +:+ String c "") = true.
Proof.
  intros H Hc. induction cur as [|x cur IH]; simpl in *; [by rewrite Hc|].
  apply andb_prop in H as [-> H]. auto.
Qed.

Lemma no_digits_snoc cur c :
  Py.no_digits cur = true -> Py.is_digit c = false ->
  Py.no_digits (cur +:+ String c "") = true.
Proof.
  intros H Hc. induction cur as [|x cur IH]; simpl in *; [by rewrite Hc|].
  apply andb_prop in H as [-> H]. auto.
Qed.

Lemma runs_go_alternating s : forall (dig : bool) (cur : string),
  (if dig then Py.all_digits cur = true /\ cur <> "" else Py.no_digits cur = true) ->
  alternating dig (map atoi (runs_go dig cur s)).
Proof.
  induction s as [|c s IH]; intros dig cur H.
  - destruct dig; simpl.
    + destruct H as [H1 H2]. destruct (atoi_digits cur H1 H2) as [n ->].
      repeat constructor.
    + rewrite atoi_no_digits by done. repeat constructor.
  - simpl. destruct (Py.is_digit c) eqn:Hc, dig; simpl.
    + apply IH. destruct H as [H1 H2]. split.
      * by apply all_digits_snoc.
      * by destruct cur.
    + rewrite atoi_no_digits by done. constructor. apply IH. simpl. by rewrite Hc.
    + destruct H as [H1 H2]. destruct (atoi_digits cur H1 H2) as [n ->].
      constructor. apply IH. simpl. by rewrite Hc.
    + apply IH. by apply no_digits_snoc.
Qed.

Lemma naturalKeys_alternating s : alternating false (naturalKeys s).
Proof. apply runs_go_alternating. done. Qed.

(** Sorting by natural keys never meets a [TypeError]. *)
Lemma natural_comparable x y : is_Some (key_lt (naturalKeys x) (naturalKeys y)).
Proof. eapply key_lt_alternating; apply naturalKeys_alternating. Qed.

(** *** Sorting *)

Lemma insert_Z_perm x l : insert_Z x l ≡ₚ x :: l.
Proof.
  induction l as [|y l IH]; simpl; [done|].
  destruct (y <? x)%Z; [|done]. rewrite IH. apply Permutation_swap.
Qed.

Lemma sort_Z_perm l : sort_Z l ≡ₚ l.
Proof.
  induction l as [|x l IH]; simpl; [done|]. by rewrite insert_Z_perm, IH.
Qed.

Lemma insert_Z_sorted x l :
  StronglySorted Z.le l -> StronglySorted Z.le (insert_Z x l).
Proof.
  induction 1 as [|y l Hl IH Hy]; simpl.
  - repeat constructor.
  - destruct (y <? x)%Z eqn:E.
    + constructor; [done|]. rewrite insert_Z_perm. constructor; [|done].
      apply Z.ltb_lt in E. lia.
    + apply Z.ltb_ge in E. constructor; [by constructor|].
      constructor; [done|]. eapply Forall_impl; [exact Hy|]. simpl. lia.
Qed.

Lemma sort_Z_sorted l : StronglySorted Z.le (sort_Z l).
Proof.
  induction l as [|x l IH]; simpl; [constructor|]. by apply insert_Z_sorted.
Qed.

Lemma StronglySorted_lt_le l : StronglySorted Z.lt l -> StronglySorted Z.le l.
Proof.
  induction 1; constructor; [done|]. eapply Forall_impl; [eassumption|]. simpl. lia.
Qed.

(** An ascending list is what sorting any arrangement of it gives. *)
Lemma sort_Z_unique l ids :
  l ≡ₚ ids -> StronglySorted Z.lt ids -> sort_Z l = ids.
Proof.
  intros Hp Hs. apply (StronglySorted_unique Z.le).
  - apply sort_Z_sorted.
  - by apply StronglySorted_lt_le.
  - by rewrite sort_Z_perm.
Qed.

Section SortNames.
Context (name : Z -> string).
Context (name_lt : forall a b, (0 <= a)%Z -> (0 <= b)%Z ->
            natural_lt (name a) (name b) = (a <? b)%Z).

Lemma insert_natural_names x l :
  (0 <= x)%Z -> Forall (Z.le 0) l ->
  insert_natural (name x) (map name l) = map name (insert_Z x l).
Proof.
  intros Hx. induction 1 as [|y l Hy Hl IH]; simpl; [done|].
  rewrite name_lt by done. destruct (y <? x)%Z; simpl; [|done]. by rewrite IH.
Qed.

Lemma sort_natural_names l :
  Forall (Z.le 0) l -> sort_natural (map name l) = map name (sort_Z l).
Proof.
  induction 1 as [|x l Hx Hl IH]; simpl; [done|].
  rewrite IH. apply insert_natural_names; [done|].
  by rewrite sort_Z_perm.
Qed.

(** Sorting the names of the numbers [ids], listed in any order,
    gives them in ascending order of the numbers. *)
Lemma sort_natural_ascending l ids :
  l ≡ₚ map name ids -> StronglySorted Z.lt ids -> Forall (Z.le 0) ids ->
  sort_natural l = map name ids.
Proof.
  intros Hp Hs Hpos.
  apply Permutation_map_inv in Hp as (ns & -> & Hns).
  rewrite sort_natural_names by (by rewrite <- Hns).
  f_equal. apply sort_Z_unique; [by symmetry | done].
Qed.
End SortNames.

(** *** Names without a directory part *)

Lemma contains_char_app a s t :
  Py.contains_char a (s +:+ t) = Py.contains_char a s || Py.contains_char a t.
Proof.
  induction s as [|c s IH]; [done|]. rewrite app_cons. simpl. rewrite IH.
  by rewrite orb_assoc.
Qed.

Lemma no_slash_app s t : no_slash s -> no_slash t -> no_slash (s +:+ t).
Proof. unfold no_slash. rewrite contains_char_app. by intros -> ->. Qed.

Lemma lower_char_slash c : Ascii.eqb (Py.lower_char c) "/" = Ascii.eqb c "/".
Proof. destruct c as [[] [] [] [] [] [] [] []]; reflexivity. Qed.

Lemma no_slash_lower s : no_slash s -> no_slash (Py.lower s).
Proof.
  unfold no_slash. induction s as [|c s IH]; simpl; [done|].
  rewrite lower_char_slash. intros [-> H]%orb_false_elim. auto.
Qed.

Lemma prefix_slash c s : String.prefix "/" (String c s) = Ascii.eqb c "/".
Proof.
  cbn [String.prefix]. destruct (ascii_dec "/" c) as [<-|Hne].
  - by destruct s.
  - symmetry. apply Ascii.eqb_neq. congruence.
Qed.

Lemma split_go_nonempty sep skip cur s : Py.split_go sep skip cur s <> [].
Proof.
  revert skip cur. induction s as [|c s IH]; intros skip cur; [done|].
  cbn [Py.split_go]. destruct skip; [|apply IH]. case_match; [done|apply IH].
Qed.

Lemma last_cons_nonempty (x : string) l : l <> [] -> Py.last (x :: l) = Py.last l.
Proof. unfold Py.last. by destruct l. Qed.

Lemma no_slash_snoc cur c :
  no_slash cur -> Ascii.eqb c "/" = false -> no_slash (cur +:+ String c "").
Proof.
  intros H Hc. apply no_slash_app; [done|]. unfold no_slash. simpl. by rewrite Hc.
Qed.

Lemma no_slash_last_split_go s : forall cur,
  no_slash cur -> no_slash (Py.last (Py.split_go "/" 0 cur s)).
Proof.
  induction s as [|c s IH]; intros cur H; [done|].
  cbn [Py.split_go]. rewrite prefix_slash. destruct (Ascii.eqb c "/") eqn:Hc.
  - rewrite last_cons_nonempty by apply split_go_nonempty. by apply IH.
  - apply IH. by apply no_slash_snoc.
Qed.

(** The last component of a path has no directory part. *)
Lemma no_slash_last_split s : no_slash (Py.last (Py.split "/" s)).
Proof. by apply no_slash_last_split_go. Qed.




Lemma no_slash_digits s : Py.all_digits s = true -> no_slash s.
Proof.
  unfold no_slash. induction s as [|c s IH]; simpl; [done|].
  intros [Hc Hs]%andb_prop. rewrite IH by done.
  destruct c as [[] [] [] [] [] [] [] []]; done.
Qed.

Lemma no_slash_str n : no_slash (Py.str n).
Proof.
  destruct (Z_lt_le_dec n 0) as [Hn|Hn].
  - destruct n as [|p|p]; try lia. unfold Py.str. simpl.
    unfold no_slash. simpl. apply no_slash_digits.
    unfold NilZero.string_of_uint. destruct (Pos.to_uint p); try apply all_digits_uint. done.
  - apply no_slash_digits. by apply all_digits_str.
Qed.

Lemma norm_no_slash p : no_slash p -> norm p = p.
Proof.
  unfold no_slash. destruct p as [|a [|b p]]; [done| |].
  - intros _. by destruct a as [[] [] [] [] [] [] [] []].
  - simpl. intros H. destruct (Ascii.eqb b "/") eqn:Hb.
    + by rewrite orb_true_r in H.
    + destruct a as [[] [] [] [] [] [] [] []]; try done.
      destruct b as [[] [] [] [] [] [] [] []]; done.
Qed.

Lemma no_slash_media_name pre n suf :
  no_slash pre -> no_slash suf -> no_slash (pre +:+ Py.str n +:+ suf).
Proof. intros. repeat apply no_slash_app; auto using no_slash_str. Qed.

(** *** Footprints of the production steps *)

Lemma no_slash_norm p : no_slash p -> no_slash (norm p).
Proof. intros H. by rewrite norm_no_slash. Qed.

Ltac stays_step :=
  lazymatch goal with
  | |- stays _ (ret _) => apply stays_ret
  | |- stays _ (raise _) => apply stays_raise
  | |- stays _ spin => apply stays_spin
  | |- stays _ (of_option _ _) => apply stays_of_option
  | |- stays _ get_self => apply stays_get_self
  | |- stays _ get_fs => apply stays_get_fs
  | |- stays _ (glob _ _ _) => apply stays_glob
  | |- stays _ glob_cwd => apply stays_glob_cwd
  | |- stays _ (py_div _ _) => apply stays_py_div
  | |- stays _ (os_path_exists _) => apply stays_os_path_exists
  | |- stays _ (os_path_getsize _) => apply stays_os_path_getsize
  | |- stays _ (bind (of_option _ _) _) => apply stays_bind_of_option; intros ? ?
  | |- stays _ (bind _ _) => apply stays_bind; [|intros ?]
  | |- stays _ (try_except _ _) => apply stays_try; [|intros ?]
  | |- stays _ (print _) => apply stays_print
  | |- stays _ (emit _) => apply stays_emit
  | |- stays _ (time_sleep _) => apply stays_time_sleep
  | |- stays _ (open_write _ _) => apply stays_open_write
  | |- stays _ (os_remove _) => apply stays_os_remove
  | |- stays _ (tool_writes _ _) => apply stays_tool_writes
  | |- stays _ (shutil_copy _ _ _) => apply stays_shutil_copy
  | |- stays _ (modify_self _) => apply stays_modify_self
  | |- stays _ (match ?x with _ => _ end) => destruct x eqn:?
  end.

Ltac quiet_side :=
  match goal with
  | |- fp_emit _ _ =>
      first [ by (intros ? ?; simplify_eq)
            | split; [by (intros ? ?; simplify_eq) | by (intros [? ?]; simplify_eq)] ]
  | |- quiet _ => by (intros ? ?; simplify_eq)
  end.

Lemma makeText_stays cfg wrap data :
  (forall t, fd_textfile data = Some t -> no_slash t) ->
  stays prelude (makeText cfg wrap data).
Proof.
  intros Ht. unfold makeText.
  repeat stays_step; try quiet_side; apply no_slash_norm; auto.
Qed.

Lemma convertFile_stays cfg e file :
  no_slash file -> stays prelude (convertFile cfg e file).
Proof.
  intros Hf. unfold convertFile.
  repeat stays_step; try quiet_side;
    try (apply no_slash_norm; first [ done | by apply no_slash_media_name ]).
  apply makeText_stays. simpl. intros t [= <-]. by apply no_slash_media_name.
Qed.

Ltac run_prims :=
  unfold tool_writes, shutil_copy, os_path_getsize, os_remove, os_path_exists, open_write,
    print, emit, time_sleep, py_div, modify_self, add_gas, get_self, get_fs,
    of_option, bind, try_except, ret, raise, spin in *.

Lemma prelude_le_cwd_quiet : fp_le prelude cwd_quiet.
Proof. repeat split; simpl; auto. by intros ev [H _]. Qed.

Lemma processZip_stays cfg z zf :
  no_slash zf -> stays prelude (processZip cfg z zf).
Proof.
  intros Hzf. unfold processZip.
  repeat stays_step; try quiet_side; try (by apply no_slash_norm).
  - apply stays_for_each. intros c _. stays_step. quiet_side.
  - apply no_slash_norm, no_slash_lower, no_slash_last_split.
Qed.

Lemma processZip_returns cfg z zf w s w' :
  processZip cfg z zf w = (Ok s, w') -> no_slash s.
Proof.
  unfold processZip. run_prims. intros H.
  repeat (case_match; simplify_eq/=); try done;
    apply no_slash_lower, no_slash_last_split.
Qed.

Lemma unzip_nested_spec cfg zs : forall src w r w',
  no_slash src ->
  unzip_nested cfg zs src w = (r, w') ->
  within prelude w w' /\ forall s, r = Ok s -> no_slash s.
Proof.
  induction zs as [|z zs IH]; intros src w r w' Hsrc; simpl.
  - destruct (Py.endswith src ".zip"); unfold spin, ret; intros [= <- <-];
      (split; [apply within_refl | by intros s [= <-]]).
  - destruct (Py.endswith src ".zip").
    + unfold bind. destruct (processZip cfg z src w) as [[s1| |] w1] eqn:E;
        pose proof (processZip_stays cfg z src Hsrc w) as Hw; rewrite E in Hw; simpl in Hw.
      * intros H. apply IH in H as [H1 H2]; [|by eapply processZip_returns].
        split; [by eapply within_trans|done].
      * intros [= <- <-]. done.
      * intros [= <- <-]. done.
    + unfold ret. intros [= <- <-]. split; [apply within_refl | by intros s [= <-]].
Qed.

Lemma norm_segment_name n : norm (segment_name n) = segment_name n.
Proof. apply norm_no_slash. by apply no_slash_media_name. Qed.

Lemma segment_name_nonempty n : segment_name n <> "".
Proof. done. Qed.

(** *** Stepping through a computation *)

Lemma wp_ret {A} (a : A) (Q : Res A -> World -> Prop) w : Q (Ok a) w -> wp (ret a) Q w.
Proof. done. Qed.

Lemma wp_bind_frame {A B} F (m : M A) (k : A -> M B) Q w0 w :
  within F w0 w -> stays F m ->
  (forall a w', within F w0 w' -> wp (k a) Q w') ->
  (forall e w', within F w0 w' -> Q (Raise e) w') ->
  (forall w', within F w0 w' -> Q Spin w') ->
  wp (bind m k) Q w.
Proof.
  intros HW Hm Hk He Hs. apply wp_bind. unfold wp.
  pose proof (within_trans F _ _ _ HW (Hm w)) as HW'.
  destruct (m w) as [[a|e|] w']; simpl in *; auto. by apply Hk.
Qed.

Lemma wp_bind_of_option {A B} e (o : option A) (k : A -> M B) Q w :
  (forall a, o = Some a -> wp (k a) Q w) ->
  (o = None -> Q (Raise e) w) ->
  wp (bind (of_option e o) k) Q w.
Proof. intros H1 H2. destruct o; [by apply H1 | by apply H2]. Qed.

Lemma wp_bind_get_self {B} (k : State -> M B) Q w :
  wp (k (self w)) Q w -> wp (bind get_self k) Q w.
Proof. done. Qed.

Lemma wp_bind_modify_self {B} f (k : unit -> M B) Q w :
  wp (k tt) Q (with_self (f (self w)) w) -> wp (bind (modify_self f) k) Q w.
Proof. done. Qed.

Lemma wp_bind_print {B} args (k : unit -> M B) Q w :
  wp (k tt) Q (with_out (out w ++ [Print args]) w) -> wp (bind (print args) k) Q w.
Proof. done. Qed.

Lemma wp_bind_emit {B} ev (k : unit -> M B) Q w :
  wp (k tt) Q (with_out (out w ++ [ev]) w) -> wp (bind (emit ev) k) Q w.
Proof. done. Qed.

Lemma wp_bind_open_write {B} path data (k : unit -> M B) Q w :
  norm path <> "" ->
  wp (k tt) Q (with_fs (<[norm path := data]> (fs w)) w) ->
  wp (bind (open_write path data) k) Q w.
Proof.
  intros Hp H. apply wp_bind. unfold wp at 1, open_write.
  by rewrite bool_decide_eq_false_2.
Qed.

Lemma wp_bind_os_remove {B} path x (k : unit -> M B) Q w :
  fs w !! norm path = Some x ->
  wp (k tt) Q (with_fs (delete (norm path) (fs w)) w) ->
  wp (bind (os_remove path) k) Q w.
Proof.
  intros Hp H. apply wp_bind. unfold wp at 1, os_remove. by rewrite Hp.
Qed.

Lemma wp_bind_py_div {B} a b (k : Q -> M B) Q' w :
  ((b == 0)%Q -> Q' (Raise ZeroDivisionError) w) ->
  (~ (b == 0)%Q -> wp (k (a / b)%Q) Q' w) ->
  wp (bind (py_div a b) k) Q' w.
Proof.
  intros H1 H2. apply wp_bind. unfold wp at 1, py_div.
  destruct (Qeq_bool b 0) eqn:E; simpl.
  - apply H1. by apply Qeq_bool_iff.
  - apply H2. intros Hb. apply Qeq_bool_iff in Hb. congruence.
Qed.

Lemma within_emit F w ev : fp_emit F ev -> within F w (with_out (out w ++ [ev]) w).
Proof. intros H. by apply (stays_emit F ev H w). Qed.

Lemma within_self F w w' : fp_frozen F = true -> within F w w' -> self w' = self w.
Proof. intros HF (H & _). unfold fp_self in H. rewrite HF in H. done. Qed.

Lemma within_step_emit F w0 w ev :
  within F w0 w -> fp_emit F ev -> within F w0 (with_out (out w ++ [ev]) w).
Proof. intros H Hev. eapply within_trans; [exact H | by apply within_emit]. Qed.

Lemma within_step_insert F w0 w k v :
  within F w0 w -> fp_touch F k -> within F w0 (with_fs (<[k := v]> (fs w)) w).
Proof.
  intros H Hk. eapply within_trans; [exact H|]. apply within_with_fs.
  intros p Hp. apply lookup_insert_ne. by intros <-.
Qed.

Lemma within_step_delete F w0 w k :
  within F w0 w -> fp_touch F k -> within F w0 (with_fs (delete k (fs w)) w).
Proof.
  intros H Hk. eapply within_trans; [exact H|]. apply within_with_fs.
  intros p Hp. apply lookup_delete_ne. by intros <-.
Qed.

Lemma wp_bind_getsize {B} path x (k : nat -> M B) Q w :
  fs w !! norm path = Some x ->
  wp (k (String.length x)) Q w ->
  wp (bind (os_path_getsize path) k) Q w.
Proof.
  intros Hp H. apply wp_bind. unfold wp at 1, os_path_getsize. by rewrite Hp.
Qed.

Ltac not_ok := solve [intros; cbv beta; intros; simplify_eq].

Ltac no_slash_side :=
  first [ assumption
        | reflexivity
        | by apply no_slash_media_name
        | apply no_slash_lower, no_slash_last_split ].

Ltac stays_solve :=
  repeat stays_step; try quiet_side; try (apply no_slash_norm; no_slash_side).

(** One step of a computation that stays in the working directory, when
    nothing is asked of a result that is not [Ok]. *)
Ltac frame_step HW :=
  eapply (wp_bind_frame prelude);
    [ exact HW
    | solve [stays_solve]
    | clear HW; intros ? ? HW
    | try not_ok
    | try not_ok ].

Lemma convertFile_spec cfg c file w :
  no_slash file ->
  wp (convertFile cfg c file)
     (fun r w' =>
        forall fd, r = Ok fd ->
          fd_playfile fd = None
          \/ exists d, accepted cfg c d
               /\ fd_playfile fd = Some (segment_name (filenumber (self w) + 1))
               /\ fd_duration fd = Some d) w.
Proof.
  intros Hfile. unfold convertFile.
  pose proof (within_refl prelude w) as HW.
  frame_step HW.
  apply wp_bind_of_option; [intros j Hj | not_ok].
  destruct (pj_filename j) as [fname|] eqn:Hfname;
    [| frame_step HW; apply wp_ret; intros fd [= <-]; by left].
  destruct (pj_title j) as [title|] eqn:Htitle;
    [| frame_step HW; apply wp_ret; intros fd [= <-]; by left].
  destruct (pj_duration j) as [probed|] eqn:Hdur;
    [| frame_step HW; apply wp_ret; intros fd [= <-]; by left].
  apply wp_bind_of_option; [intros d0 -> | not_ok].
  destruct (Qltb (maxlength cfg) d0) eqn:Hlen;
    [frame_step HW; apply wp_ret; intros fd [= <-]; by left|].
  frame_step HW.
  apply wp_bind_get_self.
  rewrite (within_self prelude w _ eq_refl HW).
  set (n := (filenumber (self w) + 1)%Z).
  fold (segment_name n).
  assert (Hseg : no_slash (segment_name n)) by (by apply no_slash_media_name).
  eapply (wp_bind_frame prelude);
    [ exact HW
    | apply makeText_stays; simpl; intros t [= <-]; by apply no_slash_media_name
    | clear HW; intros ? ? HW | not_ok | not_ok ].
  do 4 frame_step HW.
  apply wp_bind_of_option; [intros d Hd | not_ok].
  frame_step HW.
  destruct (v_encoded c) as [data|] eqn:Henc.
  - cbn [tool_writes].
    apply wp_bind_open_write; [by rewrite norm_segment_name|].
    apply wp_bind_print.
    eapply wp_bind_getsize.
    { cbn [fs with_out with_fs]. apply lookup_insert_eq. }
    destruct (String.length data =? 0)%nat eqn:Hsize.
    + apply wp_bind_print. apply wp_ret. intros fd [= <-]. by left.
    + apply (within_step_insert _ _ _ (norm (segment_name n)) data) in HW;
        [|apply no_slash_norm, Hseg].
      apply (within_step_emit _ _ _ (Print [AExt])) in HW; [|quiet_side].
      do 2 frame_step HW.
      apply wp_ret. intros fd [= <-]. right. exists d. split; [|done].
      exists j, d0. repeat split; eauto. 
      * by apply Qltb_ge.
      * intros Henc'. rewrite Henc in Henc'. by injection Henc' as ->.
  - do 2 frame_step HW.
    eapply (wp_bind_frame prelude); [exact HW | stays_solve | | not_ok..].
    clear HW. intros size w2 HW.
    destruct (size =? 0)%nat.
    + frame_step HW. apply wp_ret. intros fd [= <-]. by left.
    + do 2 frame_step HW.
      apply wp_ret. intros fd [= <-]. right. exists d. split; [|done].
      exists j, d0. repeat split; eauto; [by apply Qltb_ge | by rewrite Henc].
Qed.

Lemma wp_bind_shutil_copy {B} ok src dst (k : unit -> M B) Q w :
  (fs w !! norm src = None -> Q (Raise FileNotFoundError) w) ->
  (forall data, fs w !! norm src = Some data -> ok = false -> Q (Raise OSError) w) ->
  (forall data, fs w !! norm src = Some data -> ok = true ->
     norm dst <> "" /\ wp (k tt) Q (with_fs (<[norm dst := data]> (fs w)) w)) ->
  wp (bind (shutil_copy ok src dst) k) Q w.
Proof.
  intros H1 H2 H3. apply wp_bind. unfold wp at 1, shutil_copy.
  destruct (fs w !! norm src) as [data|]; [|by apply H1].
  destruct ok; [|by eapply H2].
  destruct (H3 data eq_refl eq_refl) as [Hd Hk].
  unfold open_write. by rewrite bool_decide_eq_false_2.
Qed.

Lemma wp_bind_eq {A B} (m : M A) (k : A -> M B) Q w :
  (forall r w', m w = (r, w') ->
     match r with
     | Ok a => wp (k a) Q w'
     | Raise e => Q (Raise e) w'
     | Spin => Q Spin w'
     end) ->
  wp (bind m k) Q w.
Proof.
  intros H. apply wp_bind. unfold wp at 1. destruct (m w) as [r w'] eqn:E.
  specialize (H r w' eq_refl). by destruct r.
Qed.

Lemma wp_bind_os_remove_some {B} path (k : unit -> M B) Q w :
  is_Some (fs w !! norm path) ->
  wp (k tt) Q (with_fs (delete (norm path) (fs w)) w) ->
  wp (bind (os_remove path) k) Q w.
Proof. intros [x Hx]. by apply (wp_bind_os_remove path x). Qed.

Lemma chain_text_code playfile m :
  "ffconcat version 1.0" +:+ Py.nl +:+ "file " +:+ playfile +:+ Py.nl
    +:+ "file playlist" +:+ Py.str m +:+ ".txt" +:+ Py.nl
  = chain_text playfile (chain_name m).
Proof.
  unfold chain_text, chain_name. do 3 f_equal.
  rewrite !app_assoc_s. reflexivity.
Qed.

Lemma norm_join_nonempty a b : b <> "" -> norm (a +:+ "/" +:+ b) <> "".
Proof.
  intros Hb. destruct a as [|x [|y a]].
  - done.
  - rewrite app_cons, app_nil, app_cons, app_nil.
    by destruct x as [[] [] [] [] [] [] [] []].
  - rewrite !app_cons.
    destruct x as [[] [] [] [] [] [] [] []]; try done.
    destruct y as [[] [] [] [] [] [] [] []]; try done.
    cbn [norm]. destruct a; [rewrite app_nil | rewrite app_cons]; done.
Qed.

Lemma wp_bind_os_remove_cases {B} path (k : unit -> M B) Q w :
  (forall x, fs w !! norm path = Some x ->
     wp (k tt) Q (with_fs (delete (norm path) (fs w)) w)) ->
  (fs w !! norm path = None -> Q (Raise FileNotFoundError) w) ->
  wp (bind (os_remove path) k) Q w.
Proof.
  intros H1 H2. apply wp_bind. unfold wp at 1, os_remove.
  destruct (fs w !! norm path) as [x|]; [by eapply H1 | by apply H2].
Qed.

Lemma processFile_outcome cfg e file w :
  wp (processFile cfg e file) (Outcome cfg e w) w.
Proof.
  unfold processFile.
  set (filename := Py.lower (Py.last (Py.split "/" file))).
  assert (Hfn : no_slash filename) by apply no_slash_lower, no_slash_last_split.
  pose proof (within_refl prelude w) as HW.
  assert (Hq : forall w', within prelude w w' -> within cwd_quiet w w')
    by (intros w'; apply within_mono, prelude_le_cwd_quiet).
  assert (Hzero : forall w', within cwd_quiet w w' -> Outcome cfg e w (Ok 0) w')
    by (intros; apply NotProduced; auto).
  assert (Hspin : forall w', within prelude w w' -> Outcome cfg e w Spin w')
    by (intros; apply NotProduced; auto).
  assert (Hidx : forall w', within prelude w w' -> Outcome cfg e w (Raise IndexError) w')
    by (intros; apply NotProduced; auto).
  apply wp_bind_print.
  apply (within_step_emit _ _ _ (Print [AStr "Filename:"; AStr filename])) in HW;
    [|quiet_side].
  apply wp_bind_of_option; [intros protocol _ | by intros; apply Hidx].
  apply wp_bind_of_option; [intros urlstring _ | by intros; apply Hidx].
  apply wp_bind_print.
  match goal with
  | |- wp _ _ (with_out (_ ++ [?ev]) _) =>
      apply (within_step_emit _ _ _ ev) in HW; [|quiet_side]
  end.
  apply wp_try.
  lazymatch goal with
  | |- wp _ (fun r w' => match r with Ok _ => _ | Raise ex => wp (@?h ex) _ _ | Spin => _ end) _ =>
      set (handler := h)
  end.
  assert (Hh : forall ex w', within cwd_quiet w w' -> wp (handler ex) (Outcome cfg e w) w').
  { intros ex w1 HW1. unfold handler.
    do 2 apply wp_bind_print. apply wp_bind_emit. apply wp_bind_print. apply wp_ret.
    apply Hzero.
    repeat (apply within_step_emit; [|quiet_side]). exact HW1. }
  apply wp_bind_of_option; [intros body _ | by intros; apply Hh, Hq].
  do 4 (eapply (wp_bind_frame prelude);
    [ exact HW | solve [stays_solve] | clear HW; intros ? ? HW
    | by intros; apply Hh, Hq | by intros; apply Hspin ]).
  apply wp_bind_eq. intros r1 w2 E1.
  apply unzip_nested_spec in E1 as [HW2 Hsrc]; [|exact Hfn].
  pose proof (within_trans _ _ _ _ HW HW2) as HW3. clear HW HW2.
  destruct r1 as [src| |]; [|by apply Hh, Hq|by apply Hspin].
  specialize (Hsrc src eq_refl).
  case_bool_decide as Hempty; [apply wp_ret; by apply Hzero, Hq|].
  apply wp_bind_eq. intros r2 w3 E2.
  pose proof (convertFile_stays cfg (p_conv e) src Hsrc w2) as HW4.
  pose proof (convertFile_spec cfg (p_conv e) src w2 Hsrc) as Hspec.
  unfold wp in Hspec. rewrite E2 in HW4, Hspec. simpl in HW4, Hspec.
  pose proof (within_trans _ _ _ _ HW3 HW4) as HW. clear HW4.
  destruct r2 as [fd| |]; [|by apply Hh, Hq|by apply Hspin].
  specialize (Hspec fd eq_refl).
  apply Hq in HW.
  destruct (fd_playfile fd) as [playfile|] eqn:Hpf.
  2:{ apply wp_bind_os_remove_cases; [intros x _ | intros _; by apply Hh].
      apply wp_ret. apply Hzero. apply within_step_delete; [done|].
      by apply no_slash_norm. }
  destruct Hspec as [?|(d & Hacc & [= ->] & Hd)]; [done|].
  rewrite (within_self prelude w w2 eq_refl HW3) in *.
  set (n := (filenumber (self w) + 1)%Z) in *.
  clear HW3 E2 w2.
  apply wp_bind_print.
  apply (within_step_emit _ _ _ (Print [AStr "Queueing:"; AStr (segment_name n)])) in HW;
    [|quiet_side].
  match type of HW with within _ _ ?w4' => set (w4 := w4') in * end.
  pose proof (within_self cwd_quiet w w4 eq_refl HW) as Hs4.
  assert (Hdone : forall r wf,
            fs wf = delete (segment_name n)
                      (<[norm (mediapath cfg +:+ "/playlist" +:+ Py.str n +:+ ".txt") :=
                           chain_text (segment_name n) (chain_name (n + 1))]>
                         (<[norm (mediapath cfg +:+ "/" +:+ segment_name n) :=
                              default "" (fs w4 !! segment_name n)]> (fs w4))) ->
            is_Some (fs w4 !! segment_name n) ->
            p_copy_ok e = true ->
            (r = Ok 1 /\ ~ (p_end e - p_start e == 0)%Q
               /\ self wf = tune cfg (d / (p_end e - p_start e)) (queued d (self w))
             \/ r = Ok 0 /\ (p_end e - p_start e == 0)%Q /\ self wf = queued d (self w)
             \/ r = Ok 0 /\ ~ (p_end e - p_start e == 0)%Q
                /\ self wf = tune cfg (d / (p_end e - p_start e)) (queued d (self w))
                /\ py_index (qualitypresets cfg) (preset (self wf)) = None) ->
            Outcome cfg e w r wf).
  { intros r wf Hfs [data Hdata] Hok Hself.
    rewrite Hdata in Hfs. by eapply (Produced cfg e w r wf d w4 data). }
  apply wp_bind_shutil_copy.
  - intros _. by apply Hh.
  - intros data _ _. by apply Hh.
  - intros data Hdata Hok. rewrite norm_segment_name in Hdata.
    split; [apply norm_join_nonempty, segment_name_nonempty|].
    apply wp_bind_modify_self. apply wp_bind_get_self.
    cbn [self with_self with_fs filenumber set_filenumber]. rewrite Hs4. fold n.
    rewrite chain_text_code.
    apply wp_bind_open_write.
    { change (norm (mediapath cfg +:+ "/" +:+ chain_name n) <> ""). 
      by apply norm_join_nonempty. }
    apply wp_bind_os_remove_some.
    { cbn [fs with_fs with_self]. rewrite norm_segment_name.
      rewrite !lookup_insert_is_Some'. right. right. rewrite Hdata. eauto. }
    rewrite Hd. apply wp_bind_of_option; [intros ? [= <-] | done].
    unfold add_gas. apply wp_bind_modify_self.
    assert (Hfinal : forall r wf,
              fs wf = delete (segment_name n)
                        (<[norm (mediapath cfg +:+ "/playlist" +:+ Py.str n +:+ ".txt") :=
                             chain_text (segment_name n) (chain_name (n + 1))]>
                           (<[norm (mediapath cfg +:+ "/" +:+ segment_name n) :=
                                data]> (fs w4))) ->
              (r = Ok 1 /\ ~ (p_end e - p_start e == 0)%Q
                 /\ self wf = tune cfg (d / (p_end e - p_start e)) (queued d (self w))
               \/ r = Ok 0 /\ (p_end e - p_start e == 0)%Q /\ self wf = queued d (self w)
               \/ r = Ok 0 /\ ~ (p_end e - p_start e == 0)%Q
                  /\ self wf = tune cfg (d / (p_end e - p_start e)) (queued d (self w))
                  /\ py_index (qualitypresets cfg) (preset (self wf)) = None) ->
              Outcome cfg e w r wf).
    { intros r wf Hfs Hself. apply Hdone; [|rewrite Hdata; eauto|done..].
      by rewrite Hdata. }
    clear Hdone.
    apply wp_bind_py_div.
    + intros Htook. unfold handler.
      do 2 apply wp_bind_print. apply wp_bind_emit. apply wp_bind_print. apply wp_ret.
      apply Hfinal.
      * cbn [fs with_fs with_self with_out]. rewrite norm_segment_name. reflexivity.
      * right. left. split; [done|]. split; [done|].
        cbn [self with_fs with_self with_out]. reflexivity.
    + intros Hnz. apply wp_bind_print. apply wp_bind_modify_self. apply wp_bind_get_self.
      apply wp_bind_of_option.
      * intros name Hname. do 2 apply wp_bind_print. apply wp_ret.
        apply Hfinal.
        -- cbn [fs with_fs with_self with_out]. rewrite norm_segment_name. reflexivity.
        -- left. split; [done|]. split; [done|].
           cbn [self with_fs with_self with_out]. reflexivity.
      * intros Hname. unfold handler.
        do 2 apply wp_bind_print. apply wp_bind_emit. apply wp_bind_print. apply wp_ret.
        apply Hfinal.
        -- cbn [fs with_fs with_self with_out]. rewrite norm_segment_name. reflexivity.
        -- right. right. split; [done|]. split; [done|]. split.
           ++ cbn [self with_fs with_self with_out]. reflexivity.
           ++ cbn [self with_fs with_self with_out] in *. exact Hname.
Qed.

(** *** Steps that report no selection *)
















(** * Properties stated by the specification *)

(** ** The quality controller *)

Lemma fold_tune_in_bounds cfg (ratios : list Q) s :
  (mincrf cfg <= maxcrf cfg)%Z -> in_bounds cfg s ->
  in_bounds cfg (fold_left (fun s r => tune cfg r s) ratios s).
Proof.
  intros Hc. revert s. induction ratios as [|r ratios IH]; intros s Hs; simpl; [done|].
  apply IH. apply tune_in_bounds; [done | apply Hs].
Qed.

(** C1. Whatever sequence of throughput ratios is fed to the quality
    controller, starting from the state [__init__] sets up (preset 0,
    crf 17, with mincrf 17 and maxcrf 28), the quality factor stays
    within [17, 28] and the preset index within [0, 8] after any number
    of updates. *)
Theorem C1_quality_state_bounded
    (exts : list string) (tp mp pu fu sv : string) (limit target : Q) (mt : string)
    (ratios : list Q) :
  let cfg := init_config exts tp mp pu fu sv limit target mt in
  let s := fold_left (fun s r => tune cfg r s) ratios init_state in
  preset init_state = 0%Z /\ crf init_state = mincrf cfg
  /\ mincrf cfg = 17%Z /\ maxcrf cfg = 28%Z
  /\ (17 <= crf s <= 28)%Z /\ (0 <= preset s <= 8)%Z.
Proof.
  intros cfg s. repeat split; try reflexivity;
    apply (fold_tune_in_bounds cfg ratios init_state); try done;
    by (split; simpl; lia).
Qed.

(** ** The gas tank *)

Lemma checkGas_run curtime w :
  checkGas curtime w
  = (Ok (gastank (self w) - (curtime - starttime (self w) - elapsedtime (self w)))%Q,
     with_self
       (set_elapsedtime (curtime - starttime (self w))%Q
          (set_gastank
             (gastank (self w) - (curtime - starttime (self w) - elapsedtime (self w)))%Q
             (self w)))
       (with_out
          (out w ++ [Print [AStr "Elapsed since start:";
                            ANum (curtime - starttime (self w))%Q];
                     Print [AStr "Gas used this round:";
                            ANum (curtime - starttime (self w) - elapsedtime (self w))%Q]])
          w)).
Proof.
  unfold checkGas, bind, get_self, print, emit, modify_self, ret.
  cbn [fst snd self with_out with_self out fs gastank set_gastank set_elapsedtime].
  rewrite <- app_assoc. reflexivity.
Qed.

(** C2. Between two consecutive readings of the gas tank with nothing
    added in between, the level falls by exactly the time elapsed
    between the readings (times being exact here), and it is not
    clamped: from a level of at most 3600, adding a segment of 120
    seconds and letting 4000 seconds pass gives a level of at most
    -280. *)
Theorem C2_gas_tank_decay (w : World) (t1 t2 : Q) :
  exists l1 w1 l2 w2,
    checkGas t1 w = (Ok l1, w1) /\ checkGas t2 w1 = (Ok l2, w2)
    /\ gastank (self w1) = l1 /\ gastank (self w2) = l2
    /\ (l2 == l1 - (t2 - t1))%Q
    /\ ((l1 <= 3600)%Q ->
        exists l3 w3,
          checkGas (t1 + 4000)%Q (add_gas 120 w1).2 = (Ok l3, w3)
          /\ (l3 == l1 + 120 - 4000)%Q /\ (l3 <= -280)%Q).
Proof.
  rewrite checkGas_run. do 2 eexists. rewrite checkGas_run. do 2 eexists.
  split; [reflexivity|]. split; [reflexivity|].
  cbn [self with_self with_out gastank set_gastank set_elapsedtime
       elapsedtime starttime].
  split; [reflexivity|]. split; [reflexivity|]. split; [ring|].
  intros Hl. unfold add_gas, modify_self. cbn [snd]. rewrite checkGas_run.
  do 2 eexists. split; [reflexivity|].
  cbn [self with_self with_out gastank set_gastank set_elapsedtime
       elapsedtime starttime].
  split; [ring|]. lra.
Qed.

Lemma C2_gas_tank_decay_witness :
  exists l3 w3,
    checkGas (10 + 4000)%Q (add_gas 120 (checkGas 10 example_world).2).2 = (Ok l3, w3)
    /\ (l3 <= -280)%Q.
Proof.
  destruct (C2_gas_tank_decay example_world 10 25)
    as (l1 & w1 & l2 & w2 & E1 & _ & Hl1 & _ & _ & Hend).
  rewrite E1. cbn [snd].
  destruct Hend as (l3 & w3 & E3 & _ & Hle).
  - rewrite checkGas_run in E1. injection E1 as <- _. vm_compute. discriminate.
  - exists l3, w3. split; [exact E3 | exact Hle].
Defined.

(** ** Producing a segment *)

Lemma processFile_cases cfg e file w r w' :
  processFile cfg e file w = (r, w') -> Outcome cfg e w r w'.
Proof.
  intros H. pose proof (processFile_outcome cfg e file w) as Ho.
  unfold wp in Ho. by rewrite H in Ho.
Qed.

Lemma within_cwd_quiet_frame w w' :
  within cwd_quiet w w' ->
  self w' = self w /\ forall p, ~ no_slash p -> fs w' !! p = fs w !! p.
Proof. intros (Hs & Hf & _). split; [by symmetry | exact Hf]. Qed.






Lemma rejected_not_accepted cfg c d :
  maxlength cfg = (gastanklimit cfg / 2)%Q -> rejected cfg c -> ~ accepted cfg c d.
Proof.
  intros Hmax Hrej (j & d0 & Hj & _ & Htitle & Hdur & Hlen & _ & Henc).
  destruct Hrej as [j' Hj' Hno | j' Hj' Hno | j' d' Hj' Hd' Hlong | Hempty].
  - rewrite Hj in Hj'. injection Hj' as <-. rewrite Hno in Htitle. by destruct Htitle.
  - rewrite Hj in Hj'. injection Hj' as <-. congruence.
  - rewrite Hj in Hj'. injection Hj' as <-. rewrite Hdur in Hd'. injection Hd' as <-.
    rewrite Hmax in Hlen. by apply Qlt_not_le in Hlong.
  - done.
Qed.

Lemma select_loop_skip cfg a attempts inputlist :
  Py.inb (Py.lower (Py.last (Py.split "." (random_choice (a_pick a) (Py.split "\n" inputlist)))))
    (extensions cfg) = false ->
  select_loop cfg (a :: attempts) inputlist = select_loop cfg attempts inputlist.
Proof. intros H. cbn [select_loop]. by rewrite H. Qed.

Lemma same_control_refl s : same_control s s.
Proof. by repeat split. Qed.

(** C10. A candidate rejected before the media copy changes nothing: a
    draw whose extension is not allowed leaves the world as it is, and a
    candidate whose probe has no title or no duration, or a duration
    above half the gas tank limit, or whose encoded file is empty, makes
    [processFile] end without returning 1 and with the file number, the
    gas tank, the quality factor and the preset unchanged.  These four
    change only when a conversion was accepted and its video copied:
    then the file number is incremented and the trimmed duration added
    to the gas tank. *)
Theorem C10_rejected_candidates_change_nothing cfg
    (Hinit : maxlength cfg = (gastanklimit cfg / 2)%Q) :
  (forall a attempts inputlist w,
     Py.inb (Py.lower (Py.last (Py.split "."
               (random_choice (a_pick a) (Py.split "\n" inputlist)))))
       (extensions cfg) = false ->
     select_loop cfg (a :: attempts) inputlist w = select_loop cfg attempts inputlist w)
  /\ (forall e file w r w',
        rejected cfg (p_conv e) ->
        processFile cfg e file w = (r, w') ->
        r <> Ok 1 /\ same_control (self w) (self w'))
  /\ (forall e file w r w',
        processFile cfg e file w = (r, w') ->
        ~ same_control (self w) (self w') ->
        exists d,
          accepted cfg (p_conv e) d /\ p_copy_ok e = true
          /\ filenumber (self w') = (filenumber (self w) + 1)%Z
          /\ gastank (self w') = (gastank (self w) + d)%Q).
Proof.
  split; [|split].
  - intros a attempts inputlist w H. by rewrite select_loop_skip.
  - intros e file w r w' Hrej H. apply processFile_cases in H.
    destruct H as [HW Hr | d w1 data n took Hacc _ _ _ _ _].
    + apply within_cwd_quiet_frame in HW as [-> _]. split; [|apply same_control_refl].
      destruct Hr as [->|[[->| ->] _]]; done.
    + by apply rejected_not_accepted in Hacc.
  - intros e file w r w' H Hchg. apply processFile_cases in H.
    destruct H as [HW Hr | d w1 data n took Hacc Hok _ _ _ Hself].
    + apply within_cwd_quiet_frame in HW as [Hs _]. rewrite Hs in Hchg.
      destruct Hchg. apply same_control_refl.
    + exists d. split; [done|]. split; [done|].
      destruct Hself as [(_ & _ & ->)|[(_ & _ & ->)|(_ & _ & -> & _)]];
        try (destruct (tune_frame cfg (d / took) (queued d (self w)))
               as (_ & -> & -> & _)); done.
Qed.

Lemma C10_rejected_candidates_change_nothing_witness :
  let r := processFile example_config example_proc_empty example_url example_world in
  r.1 <> Ok 1%Z /\ same_control (self example_world) (self r.2).
Proof.
  destruct (C10_rejected_candidates_change_nothing example_config eq_refl)
    as (_ & H & _).
  apply (H example_proc_empty example_url example_world).
  - apply empty_output. reflexivity.
  - vm_compute. reflexivity.
Defined.

(** ** The selection loop *)




(** ** The admission rule *)

(** C3. [playlistCheck] fetches the list and hashes it. If the hash is
    not the stored one, it stores the new hash and runs one production
    cycle at once, the gas tank being neither read nor changed before
    the cycle. Otherwise it reads the gas tank; below the limit it runs
    one production cycle; at or above the limit it produces nothing,
    touches no file, and sleeps for exactly the level minus the limit. *)
Theorem C3_admission_rule cfg e buf w (Hbuf : k_response e = Some buf) :
  let cycle := updatePlaylist cfg (k_cycle e) (bytes_repr buf) in
  let level := gastank (ticked (k_now e) (self w)) in
  let checked :=
    {| self := ticked (k_now e) (self w); fs := fs w;
       out := (out w ++ readings (k_now e) (self w))%list |} in
  (k_md5 e buf <> listhash (self w) ->
     playlistCheck cfg e w
     = cycle {| self := set_listhash (k_md5 e buf) (self w); fs := fs w;
                out := (out w ++ [Print [AStr "Remote playlist updated!"]])%list |})
  /\ checkGas (k_now e) w = (Ok level, checked)
  /\ (k_md5 e buf = listhash (self w) -> (level < gastanklimit cfg)%Q ->
        playlistCheck cfg e w
        = cycle (with_out
                   (out checked
                    ++ [Print [AStr "Filling up gas tank! ("; ANum level; AStr " of ";
                               ANum (gastanklimit cfg); AStr " seconds ready...)"]])%list
                   checked))
  /\ (k_md5 e buf = listhash (self w) -> ~ (level < gastanklimit cfg)%Q ->
        playlistCheck cfg e w
        = (Ok tt,
           with_out
             (out checked
              ++ [Print [AStr "Gas tank is at "; ANum level; AStr " seconds, so wait..."];
                  Sleep (level - gastanklimit cfg)%Q])%list
             checked)).
Proof.
  intros cycle level checked.
  assert (Hgas : checkGas (k_now e) w = (Ok level, checked)).
  { rewrite checkGas_run. reflexivity. }
  split; [|split; [exact Hgas|split]].
  - intros Hne. unfold playlistCheck, bind at 1. rewrite Hbuf.
    cbn [of_option ret]. unfold bind at 1. cbn [get_self].
    rewrite bool_decide_eq_false_2 by done. reflexivity.
  - intros Heq Hlt. unfold playlistCheck, bind at 1. rewrite Hbuf.
    cbn [of_option ret]. unfold bind at 1. cbn [get_self].
    rewrite bool_decide_eq_true_2 by done. cbn [negb].
    unfold bind at 1. rewrite Hgas.
    apply Qltb_lt in Hlt. rewrite Hlt. reflexivity.
  - intros Heq Hge. unfold playlistCheck, bind at 1. rewrite Hbuf.
    cbn [of_option ret]. unfold bind at 1. cbn [get_self].
    rewrite bool_decide_eq_true_2 by done. cbn [negb].
    unfold bind at 1. rewrite Hgas.
    destruct (Qltb level (gastanklimit cfg)) eqn:E; [by apply Qltb_lt in E|].
    apply Qltb_ge in E.
    unfold bind, get_self, print, emit, time_sleep.
    cbn [self with_out checked fst snd].
    assert (Hs : Qle_bool 0 (level - gastanklimit cfg) = true).
    { apply Qle_bool_iff. fold level. lra. }
    fold level. rewrite Hs. unfold emit, with_out. cbn [self fs out].
    rewrite <- app_assoc. reflexivity.
Qed.

Lemma C3_admission_rule_witness :
  playlistCheck example_config example_check
    (with_self (set_gastank 4010 init_state) example_world)
  = (Ok tt,
     {| self := ticked 10 (set_gastank 4010 init_state); fs := fs example_world;
        out := readings 10 (set_gastank 4010 init_state)
               ++ [Print [AStr "Gas tank is at "; ANum 4000%Q; AStr " seconds, so wait..."];
                   Sleep (4000 - 3600)%Q] |}).
Proof.
  destruct (C3_admission_rule example_config example_check "http://x/a.mp3"
              (with_self (set_gastank 4010 init_state) example_world) eq_refl)
    as (_ & _ & _ & H).
  rewrite H; [reflexivity | reflexivity | vm_compute; discriminate].
Defined.

(** ** The manifest *)













(** ** The media directory *)

Lemma glob_matching dir pre suf w :
  glob dir pre suf w = (Ok (matching dir pre suf (fs w)), w).
Proof. reflexivity. Qed.

Lemma matching_present dir pre suf f path :
  path ∈ matching dir pre suf f -> is_Some (f !! path).
Proof.
  unfold matching. intros H. apply list_elem_of_In, filter_In in H as [H _].
  apply in_map_iff in H as ([p v] & <- & H). apply list_elem_of_In in H.
  apply elem_of_map_to_list in H. simpl. eauto.
Qed.

Lemma chain_path_lt a b :
  (0 <= a)%Z -> (0 <= b)%Z -> natural_lt (chain_path a) (chain_path b) = (a <? b)%Z.
Proof. intros Ha Hb. by apply (natural_lt_name "/media/playlist" ".txt"). Qed.

Lemma segment_path_lt a b :
  (0 <= a)%Z -> (0 <= b)%Z -> natural_lt (segment_path a) (segment_path b) = (a <? b)%Z.
Proof. intros Ha Hb. by apply (natural_lt_name "/media/media" ".flv"). Qed.





(** ** The usage pass *)

Lemma int_digits_segment_path n :
  (0 <= n)%Z -> Py.int (Py.keep_digits (segment_path n)) = Some n.
Proof.
  intros Hn. unfold segment_path, segment_name. rewrite !keep_digits_app.
  rewrite (keep_digits_none "/media/"), (keep_digits_none "media"),
    (keep_digits_none ".flv") by done.
  rewrite keep_digits_all by (by apply all_digits_str).
  rewrite !app_nil, app_empty_r. by apply int_str.
Qed.

Lemma int_digits_chain_path n :
  (0 <= n)%Z -> Py.int (Py.keep_digits (chain_path n)) = Some n.
Proof.
  intros Hn. unfold chain_path, chain_name. rewrite !keep_digits_app.
  rewrite (keep_digits_none "/media/"), (keep_digits_none "playlist"),
    (keep_digits_none ".txt") by done.
  rewrite keep_digits_all by (by apply all_digits_str).
  rewrite !app_nil, app_empty_r. by apply int_str.
Qed.

Lemma segment_path_inj a b :
  (0 <= a)%Z -> (0 <= b)%Z -> segment_path a = segment_path b -> a = b.
Proof.
  intros Ha Hb H. apply (f_equal (fun s => Py.int (Py.keep_digits s))) in H.
  rewrite !int_digits_segment_path in H by done. congruence.
Qed.

Lemma chain_path_inj a b :
  (0 <= a)%Z -> (0 <= b)%Z -> chain_path a = chain_path b -> a = b.
Proof.
  intros Ha Hb H. apply (f_equal (fun s => Py.int (Py.keep_digits s))) in H.
  rewrite !int_digits_chain_path in H by done. congruence.
Qed.

Lemma segment_chain_ne a b : segment_path a <> chain_path b.
Proof.
  unfold segment_path, chain_path, segment_name, chain_name.
  rewrite !app_cons, !app_nil. intros H. discriminate H.
Qed.

Lemma used_fraction_run e f w :
  (c_usage e f).2 <> 0%Z ->
  used_fraction (c_usage e f) w = (Ok (usage_of e f), w).
Proof.
  intros Hz. unfold used_fraction, py_div.
  destruct (Qeq_bool (inject_Z (c_usage e f).2) 0) eqn:E; [|reflexivity].
  apply Qeq_bool_iff in E. unfold Qeq in E. simpl in E. lia.
Qed.

Lemma remove_segment_run cfg n w :
  mediapath cfg = "/media" -> (0 <= n)%Z ->
  is_Some (fs w !! segment_path n) -> is_Some (fs w !! chain_path n) ->
  remove_segment cfg (segment_path n) w = (Ok tt, with_fs (remove_pair (fs w) n) w).
Proof.
  intros Hmp Hn [x Hx] [y Hy]. unfold remove_segment.
  rewrite int_digits_segment_path, Hmp by done.
  unfold bind at 1. cbn [of_option ret]. unfold bind at 1.
  change (path_join "/media" (segment_path n)) with (segment_path n).
  change (path_join "/media" ("playlist" +:+ Py.str n +:+ ".txt")) with (chain_path n).
  unfold os_remove.
  change (norm (segment_path n)) with (segment_path n).
  change (norm (chain_path n)) with (chain_path n).
  rewrite Hx. cbn [fs with_fs].
  rewrite lookup_delete_ne by apply segment_chain_ne. rewrite Hy.
  reflexivity.
Qed.

Lemma evicted_cons n ns f : evicted (n :: ns) f = evicted ns (remove_pair f n).
Proof. reflexivity. Qed.

Lemma remove_pair_other_segment f n m :
  (0 <= n)%Z -> (0 <= m)%Z -> n <> m ->
  remove_pair f n !! segment_path m = f !! segment_path m.
Proof.
  intros Hn Hm Hne. unfold remove_pair.
  rewrite lookup_delete_ne by (intros H; symmetry in H; by apply segment_chain_ne in H).
  rewrite lookup_delete_ne; [done|]. intros H. by apply segment_path_inj in H.
Qed.

Lemma remove_pair_other_chain f n m :
  (0 <= n)%Z -> (0 <= m)%Z -> n <> m ->
  remove_pair f n !! chain_path m = f !! chain_path m.
Proof.
  intros Hn Hm Hne. unfold remove_pair.
  rewrite lookup_delete_ne by (intros H; by apply chain_path_inj in H).
  rewrite lookup_delete_ne; [done|]. apply segment_chain_ne.
Qed.


Lemma sorted_NoDup ids : StronglySorted Z.lt ids -> NoDup ids.
Proof.
  induction 1 as [|x l Hs IH Hall]; constructor; [|done].
  intros Hx. rewrite Forall_forall in Hall. specialize (Hall x Hx). lia.
Qed.



(** * Further properties of the code *)

(** ** Natural order *)

(** X1. [sort_natural], the sort by [naturalKeys], puts names that
    differ in their number only in ascending order of the numbers,
    whatever order they come in: [playlist10.txt] after
    [playlist2.txt]. *)
Theorem natural_sort_orders_by_number pre suf l ids
    (Hpre : Py.no_digits pre = true)
    (Hsuf : Py.no_digits suf = true)
    (Hperm : l ≡ₚ map (numbered pre suf) ids)
    (Hsorted : StronglySorted Z.lt ids)
    (Hnonneg : Forall (Z.le 0) ids) :
  sort_natural l = map (numbered pre suf) ids.
Proof.
  apply (sort_natural_ascending (numbered pre suf)); [|done..].
  intros a b Ha Hb. by apply natural_lt_name.
Qed.

Lemma natural_sort_orders_by_number_witness :
  sort_natural ["playlist10.txt"; "playlist2.txt"; "playlist1.txt"]
  = ["playlist1.txt"; "playlist2.txt"; "playlist10.txt"].
Proof.
  apply (natural_sort_orders_by_number "playlist" ".txt" _ [1; 2; 10]%Z).
  - reflexivity.
  - reflexivity.
  - vm_compute. apply Permutation_rev.
  - repeat constructor; lia.
  - repeat constructor; lia.
Defined.


(** X3. The key of a name made of a text without digits, a number and
    a text without digits has three elements: the text, the number as
    an [int], the text. *)
Theorem natural_keys_of_numbered_name pre suf n
    (Hpre : Py.no_digits pre = true)
    (Hsuf : Py.no_digits suf = true)
    (Hn : (0 <= n)%Z) :
  naturalKeys (numbered pre suf n) = [KStr pre; KInt n; KStr suf]
  /\ atoi (Py.str n) = KInt n /\ atoi pre = KStr pre.
Proof.
  split; [by apply naturalKeys_name|]. split; [by apply atoi_str | by apply atoi_no_digits].
Qed.

Lemma natural_keys_of_numbered_name_witness :
  naturalKeys "/media/media12.flv" = [KStr "/media/media"; KInt 12; KStr ".flv"].
Proof.
  apply (natural_keys_of_numbered_name "/media/media" ".flv" 12); [reflexivity..|lia].
Defined.

(** ** The clamp *)

(** X4. With [minn <= maxn], [clamp] returns [n] exactly when [n] is in
    the range, is idempotent, and is monotone; with [maxn < minn] it
    returns [minn] whatever [n] is. *)
Theorem clamp_fixes_the_range n m minn maxn :
  (minn <= maxn -> (clamp n minn maxn = n <-> minn <= n <= maxn))%Z
  /\ clamp (clamp n minn maxn) minn maxn = clamp n minn maxn
  /\ (n <= m -> clamp n minn maxn <= clamp m minn maxn)%Z
  /\ (maxn < minn -> clamp n minn maxn = minn)%Z.
Proof. unfold clamp. lia. Qed.

(** ** What [processFile] leaves in place *)

(** X5. Whatever its environment and however it ends, [processFile]
    keeps the quality factor within [mincrf, maxcrf] and the preset
    within [0, 8]. *)
Theorem processFile_keeps_quality_bounds cfg e file w
    (Hcrf : (mincrf cfg <= maxcrf cfg)%Z)
    (Hb : in_bounds cfg (self w)) :
  in_bounds cfg (self (processFile cfg e file w).2).
Proof.
  destruct (processFile cfg e file w) as [r w'] eqn:Hrun. cbn [snd].
  destruct (processFile_cases _ _ _ _ _ _ Hrun) as [Hq _|d w1 data n took _ _ _ _ _ Hend].
  - apply within_cwd_quiet_frame in Hq as [-> _]. exact Hb.
  - destruct Hb as [Hb1 Hb2].
    destruct Hend as [(_ & _ & ->)|[(_ & _ & ->)|(_ & _ & -> & _)]];
      [by apply tune_in_bounds | done | by apply tune_in_bounds].
Qed.

Lemma processFile_keeps_quality_bounds_witness :
  in_bounds example_config (self (processFile example_config example_proc example_url
                                    example_world).2).
Proof.
  apply processFile_keeps_quality_bounds; [done|].
  split; simpl; lia.
Defined.



(** X7. A call of [processFile] that returns 1 has advanced the file
    number to [n], has left the video [media<n>.flv] in the media
    directory and no copy of it in the working directory, and has
    written the chain file [playlist<n>.txt], which names that video
    and the chain file [playlist<n+1>.txt] after it. *)
Theorem processFile_publishes_chain_link cfg e file w
    (Hmp : mediapath cfg = "/media")
    (Hret : (processFile cfg e file w).1 = Ok 1%Z) :
  let n := (filenumber (self w) + 1)%Z in
  let w' := (processFile cfg e file w).2 in
  filenumber (self w') = n
  /\ fs w' !! chain_path n = Some (chain_text (segment_name n) (chain_name (n + 1)))
  /\ is_Some (fs w' !! segment_path n)
  /\ fs w' !! segment_name n = None.
Proof.
  destruct (processFile cfg e file w) as [r w'] eqn:Hrun. cbn [fst snd] in *. subst r.
  destruct (processFile_cases _ _ _ _ _ _ Hrun)
    as [_ [H|[[H|H] _]]|d w1 data n took _ _ _ Hdata Hfs Hend]; [done..|].
  rewrite Hmp in Hfs.
  change (norm ("/media" +:+ "/playlist" +:+ Py.str n +:+ ".txt")) with (chain_path n) in Hfs.
  change (norm ("/media" +:+ "/" +:+ segment_name n)) with (segment_path n) in Hfs.
  assert (Hne : segment_name n <> chain_path n).
  { unfold segment_name, chain_path. rewrite !app_cons. intros H. discriminate H. }
  cbv zeta. fold n. split; [|split; [|split]].
  - destruct Hend as [(_ & _ & ->)|[([=] & _)|([=] & _)]].
    by destruct (tune_frame cfg (d / took) (queued d (self w))) as (_ & _ & -> & _).
  - rewrite Hfs, lookup_delete_ne by done. by rewrite lookup_insert_eq.
  - rewrite Hfs, lookup_delete_ne.
    2:{ unfold segment_name, segment_path. rewrite !app_cons. intros H. discriminate H. }
    rewrite lookup_insert_ne by (intros H; symmetry in H; by apply segment_chain_ne in H).
    rewrite lookup_insert_eq. eauto.
  - rewrite Hfs. apply lookup_delete_eq.
Qed.

Lemma processFile_publishes_chain_link_witness :
  fs (processFile example_config example_proc example_url example_world).2
    !! "/media/playlist1.txt" = Some (chain_text "media1.flv" "playlist2.txt").
Proof.
  destruct (processFile_publishes_chain_link example_config example_proc example_url
              example_world eq_refl) as (_ & H & _).
  - vm_compute. reflexivity.
  - exact H.
Defined.

(** ** Progress of a production cycle *)

Lemma processFile_filenumber cfg e file w r w' :
  processFile cfg e file w = (r, w') ->
  (filenumber (self w) <= filenumber (self w'))%Z
  /\ forall status, r = Ok status -> status <> 0%Z ->
       filenumber (self w') = (filenumber (self w) + 1)%Z.
Proof.
  intros Hrun.
  destruct (processFile_cases _ _ _ _ _ _ Hrun)
    as [Hq Hr|d w1 data n took _ _ _ _ _ Hend].
  - apply within_cwd_quiet_frame in Hq as [-> _]. split; [lia|].
    intros status -> Hst. destruct Hr as [H|[[H|H] _]]; by simplify_eq.
  - assert (Hn : filenumber (self w') = (filenumber (self w) + 1)%Z).
    { destruct Hend as [(_ & _ & ->)|[(_ & _ & ->)|(_ & _ & -> & _)]]; try done;
        by destruct (tune_frame cfg (d / took) (queued d (self w))) as (_ & _ & -> & _). }
    split; [lia | done].
Qed.

Lemma select_loop_filenumber cfg attempts inputlist : forall w r w',
  select_loop cfg attempts inputlist w = (r, w') ->
  (filenumber (self w) <= filenumber (self w'))%Z
  /\ (r = Ok tt -> (filenumber (self w) < filenumber (self w'))%Z).
Proof.
  induction attempts as [|a attempts IH]; intros w r w'; cbn [select_loop].
  - intros [= <- <-]. split; [lia | done].
  - destruct (Py.inb _ (extensions cfg)); cbn [negb]; [|apply IH].
    cbv zeta. unfold bind at 1. unfold print, emit. unfold bind at 1.
    set (w1 := with_out _ w).
    destruct (processFile cfg (a_proc a) _ w1) as [r1 w2] eqn:Hrun.
    destruct (processFile_filenumber _ _ _ _ _ _ Hrun) as [Hle Hst].
    change (filenumber (self w1)) with (filenumber (self w)) in *.
    destruct r1 as [status| |]; [|intros [= <- <-]; split; [lia|done]..].
    destruct (status =? 0)%Z eqn:E.
    + intros Hrest. destruct (IH _ _ _ Hrest) as [IH1 IH2].
      split; [lia|]. intros H. specialize (IH2 H). lia.
    + apply Z.eqb_neq in E. specialize (Hst status eq_refl E).
      intros [= <- <-]. split; lia.
Qed.

Ltac frozen_solve := repeat stays_step; try exact I; try (by intros ?).

Lemma remove_segment_frozen cfg item : stays frozen (remove_segment cfg item).
Proof. unfold remove_segment. frozen_solve. Qed.

Lemma usage_loop_frozen cfg e filelist : forall u, stays frozen (usage_loop cfg e filelist u).
Proof.
  induction filelist as [|item filelist IH]; intros u; simpl; unfold used_fraction.
  - frozen_solve.
  - apply stays_bind; [frozen_solve | intros fraction].
    destruct (Qltb 0.8 fraction); [|frozen_solve].
    apply stays_bind; [frozen_solve | intros _].
    apply stays_bind; [apply remove_segment_frozen | intros _].
    apply stays_bind; [by intros w; apply within_refl | intros u'; apply IH].
Qed.

Lemma cleanCache_frozen cfg e : stays frozen (cleanCache cfg e).
Proof.
  unfold cleanCache, age_pass, usage_pass, stray_sweep, used_fraction.
  apply stays_bind; [|intros _].
  { apply stays_bind; [frozen_solve | intros filelist].
    apply stays_for_each. intros file _.
    apply stays_bind; [by intros w; unfold os_stat_mtime; case_match; apply within_refl|].
    intros mtime. destruct (Qltb mtime (c_now e - 5400)); [|frozen_solve].
    apply stays_bind; [frozen_solve | intros _; apply remove_segment_frozen]. }
  apply stays_bind; [|intros finished].
  { apply stays_bind; [frozen_solve | intros filelist].
    apply stays_bind; [by intros w; apply within_refl | intros u].
    apply stays_bind; [frozen_solve | intros fraction].
    apply stays_bind; [frozen_solve | intros _].
    apply usage_loop_frozen. }
  destruct finished; [|frozen_solve].
  apply stays_bind; [frozen_solve | intros filelist].
  apply stays_for_each. intros file _. frozen_solve.
Qed.

Lemma updateStartup_frozen cfg : stays frozen (updateStartup cfg).
Proof. unfold updateStartup. frozen_solve. Qed.

(** X8. A production cycle never lowers the file number, and a cycle
    that ends normally has raised it: [updatePlaylist] returns only
    after a segment was queued. *)
Theorem updatePlaylist_advances_filenumber cfg e inputlist w :
  let r := updatePlaylist cfg e inputlist w in
  (filenumber (self w) <= filenumber (self r.2))%Z
  /\ (r.1 = Ok tt -> (filenumber (self w) < filenumber (self r.2))%Z).
Proof.
  cbv zeta. destruct (updatePlaylist cfg e inputlist w) as [r w'] eqn:Hrun.
  cbn [fst snd]. unfold updatePlaylist in Hrun. unfold bind at 1 in Hrun.
  destruct (select_loop cfg (y_attempts e) inputlist w) as [r1 w1] eqn:Hsel.
  destruct (select_loop_filenumber _ _ _ _ _ _ Hsel) as [Hle Hlt].
  destruct r1 as [[]| |]; [|injection Hrun as <- <-; split; [lia|done]..].
  specialize (Hlt eq_refl).
  assert (Hst : stays frozen (cleanCache cfg (y_clean e) >> updateStartup cfg)).
  { apply stays_bind; [apply cleanCache_frozen | intros _; apply updateStartup_frozen]. }
  destruct (Hst w1) as [Hs _]. rewrite Hrun in Hs. cbn in Hs. rewrite <- Hs.
  split; [lia | intros _; lia].
Qed.

(** ** Start-up *)

Lemma int_nonneg s n : Py.int s = Some n -> (0 <= n)%Z.
Proof.
  unfold Py.int. destruct (Py.isdigit s); [|done].
  destruct (NilEmpty.uint_of_string s) as [d|]; [|done].
  intros [= <-]. unfold Z.of_uint. lia.
Qed.

Lemma getFileNumber_run cfg w :
  exists n evs,
    getFileNumber cfg w
    = (Ok tt, {| self := set_filenumber n (self w); fs := fs w;
                 out := (out w ++ evs)%list |})
    /\ (0 <= n)%Z /\ n <> 1%Z.
Proof.
  unfold getFileNumber. unfold bind at 1. unfold try_except.
  unfold bind at 1. rewrite glob_matching.
  unfold bind at 1.
  destruct (last (sort_natural (matching (mediapath cfg) "" ".txt" (fs w)))) as [lastfile|];
    cbn [of_option ret raise].
  - unfold bind at 1.
    destruct (Py.int (Py.keep_digits lastfile)) as [lastnumber|] eqn:Hint;
      cbn [of_option ret raise].
    + apply int_nonneg in Hint.
      exists (if (lastnumber =? 1)%Z then 0%Z else lastnumber),
        [Print [AStr "File number is now:";
                AInt (if (lastnumber =? 1)%Z then 0 else lastnumber)]].
      split; [reflexivity|].
      destruct (lastnumber =? 1)%Z eqn:E; [lia|]. apply Z.eqb_neq in E. lia.
    + exists 0%Z, [Print [AStr "Couldn't find valid startup files!"];
                   Print [AStr "File number is now:"; AInt 0]].
      split; [|lia]. cbn. by rewrite <- app_assoc.
  - exists 0%Z, [Print [AStr "Couldn't find valid startup files!"];
                 Print [AStr "File number is now:"; AInt 0]].
    split; [|lia]. cbn. by rewrite <- app_assoc.
Qed.

(** X9. [getFileNumber] always returns: whatever the media directory
    holds, it ends normally, writes no file, changes nothing of [self]
    but the file number, and the file number it sets is never negative
    and never 1. With no [*.txt] file in the media directory the
    [IndexError] of the empty list is caught and the file number is 0. *)
Theorem getFileNumber_always_returns cfg w :
  (exists n evs,
     getFileNumber cfg w
     = (Ok tt, {| self := set_filenumber n (self w); fs := fs w;
                  out := (out w ++ evs)%list |})
     /\ (0 <= n)%Z /\ n <> 1%Z)
  /\ (matching (mediapath cfg) "" ".txt" (fs w) = [] ->
      getFileNumber cfg w
      = (Ok tt, {| self := set_filenumber 0 (self w); fs := fs w;
                   out := (out w ++ [Print [AStr "Couldn't find valid startup files!"];
                                     Print [AStr "File number is now:"; AInt 0]])%list |})).
Proof.
  split; [apply getFileNumber_run|].
  intros Hnone. unfold getFileNumber. unfold bind at 1. unfold try_except.
  unfold bind at 1. rewrite glob_matching, Hnone. cbn. by rewrite <- app_assoc.
Qed.

Lemma last_map_snoc {A B} (f : A -> B) l x : last (map f (l ++ [x])) = Some (f x).
Proof. rewrite map_app. cbn [map]. apply last_snoc. Qed.

(** X10. When the [*.txt] files of the media directory are the chain
    files of the numbers [ids] and [m], with [m] the greatest,
    [getFileNumber] resumes at [m], except that it reads a greatest
    number of 1 as a fresh start and resumes at 0. *)
Theorem getFileNumber_resumes_at_last cfg w ids m
    (Hmp : mediapath cfg = "/media")
    (Hsorted : StronglySorted Z.lt (ids ++ [m]))
    (Hnonneg : Forall (Z.le 0) (ids ++ [m]))
    (Hdir : matching "/media" "" ".txt" (fs w) ≡ₚ map chain_path (ids ++ [m])) :
  let n := if (m =? 1)%Z then 0%Z else m in
  getFileNumber cfg w
  = (Ok tt, {| self := set_filenumber n (self w); fs := fs w;
               out := (out w ++ [Print [AStr "File number is now:"; AInt n]])%list |}).
Proof.
  assert (Hsort : sort_natural (matching "/media" "" ".txt" (fs w))
                  = map chain_path (ids ++ [m])).
  { by apply (sort_natural_ascending chain_path chain_path_lt). }
  unfold getFileNumber. rewrite Hmp. unfold bind at 1. unfold try_except.
  unfold bind at 1. rewrite glob_matching, Hsort.
  unfold bind at 1. rewrite last_map_snoc. cbn [of_option ret].
  unfold bind at 1. rewrite int_digits_chain_path.
  2:{ rewrite Forall_app in Hnonneg. destruct Hnonneg as [_ H]. by inversion H. }
  reflexivity.
Qed.

Lemma getFileNumber_resumes_at_last_witness :
  filenumber (self (getFileNumber example_config two_segment_world).2) = 10%Z
  /\ filenumber (self (getFileNumber example_config example_world).2) = 0%Z.
Proof.
  split.
  - rewrite (getFileNumber_resumes_at_last example_config two_segment_world [0; 2] 10)%Z;
      [reflexivity | reflexivity | repeat constructor; lia | repeat constructor; lia |].
    vm_compute.
    first [ reflexivity
          | apply Permutation_rev
          | apply perm_swap
          | (etransitivity; [apply perm_swap|]; apply perm_skip, perm_swap)
          | (etransitivity; [apply perm_skip, perm_swap|]; apply perm_swap)
          | apply perm_skip, perm_swap ].
  - rewrite (getFileNumber_resumes_at_last example_config example_world [0] 1)%Z;
      [reflexivity | reflexivity | repeat constructor; lia | repeat constructor; lia |].
    vm_compute. first [ reflexivity | apply perm_swap ].
Defined.

Lemma initRun_run cfg now w :
  exists n evs,
    initRun cfg now w
    = (Ok tt,
       {| self := set_starttime now
                    (set_elapsedtime 0 (set_filenumber n (set_gastank 0 (self w))));
          fs := fs w; out := (out w ++ evs)%list |}).
Proof.
  unfold initRun. unfold bind at 1. unfold modify_self at 1. unfold bind at 1.
  destruct (getFileNumber_run cfg (with_self (set_gastank 0 (self w)) w))
    as (n & evs & Hrun & _).
  rewrite Hrun. exists n, evs. reflexivity.
Qed.

(** X11. [initRun] always returns; it writes no file, empties the gas
    tank, sets the elapsed time to 0 and the start to the time it
    reads, and leaves the quality factor, the preset and the stored
    hash as they were. A reading of the gas tank at time [t] right
    after that gives [now - t]: the tank starts empty and is below any
    positive limit. *)
Theorem initRun_starts_with_empty_tank cfg now w t :
  exists w' level w'',
    initRun cfg now w = (Ok tt, w')
    /\ fs w' = fs w
    /\ gastank (self w') = 0%Q /\ elapsedtime (self w') = 0%Q
    /\ starttime (self w') = now
    /\ crf (self w') = crf (self w) /\ preset (self w') = preset (self w)
    /\ listhash (self w') = listhash (self w)
    /\ checkGas t w' = (Ok level, w'') /\ (level == now - t)%Q.
Proof.
  destruct (initRun_run cfg now w) as (n & evs & ->).
  eexists. rewrite checkGas_run. do 2 eexists.
  split; [reflexivity|]. cbn.
  repeat (split; [reflexivity|]). ring.
Qed.

(** ** The sanity check *)

Lemma sanityCheck_paths cfg :
  mediapath cfg = "/media" ->
  path_join (mediapath cfg) "playlist0.txt" = "/media/playlist0.txt"
  /\ path_join (mediapath cfg) "startup.flv" = "/media/startup.flv".
Proof. by intros ->. Qed.

(** X12. With the media directory of [main.py], a [sanityCheck] that
    ends normally leaves the entry file [playlist0.txt] and the startup
    video in place, and a second check right after it does nothing. *)
Theorem sanityCheck_establishes_bootstrap cfg startup startup' w
    (Hmp : mediapath cfg = "/media")
    (Hok : (sanityCheck cfg startup w).1 = Ok tt) :
  let w' := (sanityCheck cfg startup w).2 in
  is_Some (fs w' !! "/media/playlist0.txt")
  /\ is_Some (fs w' !! "/media/startup.flv")
  /\ sanityCheck cfg startup' w' = (Ok tt, w').
Proof.
  cbv zeta. destruct (sanityCheck_paths cfg Hmp) as [Hp Hs].
  assert (Hpost : is_Some (fs (sanityCheck cfg startup w).2 !! "/media/playlist0.txt")
                  /\ is_Some (fs (sanityCheck cfg startup w).2 !! "/media/startup.flv")).
  { revert Hok. unfold sanityCheck. rewrite Hp, Hs. run_prims.
    cbn [norm fs with_fs with_out with_self fst snd].
    repeat (case_bool_decide || case_match); simplify_eq/=; intros; simplify_eq;
      repeat match goal with
             | H : context [<[_ := _]> _ !! _] |- _ =>
                 rewrite lookup_insert_ne in H by done
             end;
      (split; repeat (rewrite lookup_insert_ne by done);
       rewrite ?lookup_insert_eq; eauto). }
  destruct Hpost as [H0 H1]. split; [exact H0|]. split; [exact H1|].
  clear Hok. destruct (sanityCheck cfg startup w) as [r w']. cbn [snd] in *.
  unfold sanityCheck. rewrite Hp, Hs. unfold bind at 1. unfold os_path_exists at 1.
  cbn [norm]. rewrite bool_decide_eq_true_2 by done.
  unfold bind at 1. cbn [ret]. unfold bind at 1. unfold os_path_exists at 1.
  cbn [norm]. by rewrite bool_decide_eq_true_2.
Qed.

Lemma sanityCheck_establishes_bootstrap_witness :
  sanityCheck example_config None
    (sanityCheck example_config (Some "video") empty_world).2
  = (Ok tt, (sanityCheck example_config (Some "video") empty_world).2).
Proof.
  destruct (sanityCheck_establishes_bootstrap example_config (Some "video") None empty_world)
    as (_ & _ & H); [reflexivity | vm_compute; reflexivity | exact H].
Defined.



(** ** The main loop *)

Lemma bind_ok {A B} (m : M A) (k : A -> M B) w b :
  (bind m k w).1 = Ok b -> exists a w1, m w = (Ok a, w1) /\ (k a w1).1 = Ok b.
Proof.
  unfold bind. destruct (m w) as [[a|ex|] w1]; cbn [fst]; [eauto | done | done].
Qed.

Lemma run_loop_never_ok cfg turns : forall w, (run_loop cfg turns w).1 <> Ok tt.
Proof.
  induction turns as [|t turns IH]; intros w; cbn [run_loop]; [done|].
  intros H. apply bind_ok in H as (_ & w1 & _ & H).
  apply bind_ok in H as (_ & w2 & _ & H). by apply IH in H.
Qed.

(** X14. [run] never returns normally: whatever happens in its turns,
    it goes on or ends by an exception. *)
Theorem run_never_returns cfg now turns w :
  (run cfg now turns w).1 <> Ok tt.
Proof.
  unfold run. intros H. apply bind_ok in H as (_ & w1 & _ & H).
  by apply run_loop_never_ok in H.
Qed.

(** X15. The loop of [run] catches nothing: with the media directory
    of [main.py] in order, a first turn in which the remote list cannot
    be fetched ends [run] with the [URLError] of the fetch, no file
    having been written. *)
Theorem run_stops_on_failed_fetch cfg now t turns w
    (Hmp : mediapath cfg = "/media")
    (Hentry : is_Some (fs w !! "/media/playlist0.txt"))
    (Hvideo : is_Some (fs w !! "/media/startup.flv"))
    (Hfetch : k_response (t_check t) = None) :
  exists w', run cfg now (t :: turns) w = (Raise URLError, w') /\ fs w' = fs w.
Proof.
  destruct (sanityCheck_paths cfg Hmp) as [Hp Hs].
  unfold run. unfold bind at 1.
  destruct (initRun_run cfg now w) as (n & evs & ->).
  cbn [run_loop]. unfold bind at 1.
  unfold sanityCheck. rewrite Hp, Hs. unfold bind at 1. unfold os_path_exists at 1.
  cbn [norm fs]. rewrite bool_decide_eq_true_2 by done.
  unfold bind at 1. cbn [ret]. unfold bind at 1. unfold os_path_exists at 1.
  cbn [norm fs]. rewrite bool_decide_eq_true_2 by done.
  unfold bind at 1. unfold playlistCheck. unfold bind at 1. rewrite Hfetch.
  cbn [of_option raise]. eexists. split; reflexivity.
Qed.

Lemma run_stops_on_failed_fetch_witness :
  (run example_config 0 [offline_turn] example_world).1 = Raise URLError.
Proof.
  destruct (run_stops_on_failed_fetch example_config 0 offline_turn [] example_world)
    as (w' & H & _); [reflexivity | vm_compute; eauto | vm_compute; eauto | reflexivity |].
  by rewrite H.
Defined.

(** ** The entry file *)

Lemma updateStartup_entry_only cfg : stays entry_only (updateStartup cfg).
Proof. unfold updateStartup. repeat stays_step; done. Qed.

(** X16. [updateStartup] writes no file but [/media/playlist0.txt],
    whatever the media directory is configured to be, and leaves [self]
    as it was. *)
Theorem updateStartup_touches_entry_only cfg w p
    (Hp : p <> "/media/playlist0.txt") :
  fs (updateStartup cfg w).2 !! p = fs w !! p
  /\ self (updateStartup cfg w).2 = self w.
Proof.
  destruct (updateStartup_entry_only cfg w) as (Hs & Hf & _).
  split; [by apply Hf | by symmetry].
Qed.

Lemma updateStartup_touches_entry_only_witness :
  fs (updateStartup example_config one_segment_world).2 !! "/media/playlist1.txt"
  = Some (chain_text "media1.flv" "playlist2.txt").
Proof.
  destruct (updateStartup_touches_entry_only example_config one_segment_world
              "/media/playlist1.txt") as [H _]; [done|].
  rewrite H. reflexivity.
Defined.

(** X17. When the media directory holds no [playlist*.txt] at all,
    [updateStartup] ends by an [IndexError], which it does not catch,
    and changes nothing. *)
Theorem updateStartup_needs_a_chain_file cfg w
    (Hnone : matching (mediapath cfg) "playlist" ".txt" (fs w) = []) :
  updateStartup cfg w = (Raise IndexError, w).
Proof.
  unfold updateStartup. unfold bind at 1. rewrite glob_matching, Hnone. reflexivity.
Qed.

Lemma updateStartup_needs_a_chain_file_witness :
  updateStartup example_config empty_world = (Raise IndexError, empty_world).
Proof. apply updateStartup_needs_a_chain_file. reflexivity. Defined.

(** ** The cache *)

(** X18. When the disk is more than 80% full and the media directory
    holds no segment, [cleanCache] reports the usage and returns at
    once: nothing is removed, and the stray files of the working
    directory are left where they are. *)
Theorem cleanCache_return_skips_sweep cfg e w
    (Hnone : matching (mediapath cfg) "media" ".flv" (fs w) = [])
    (Htotal : (c_usage e (fs w)).2 <> 0%Z)
    (Hover : over_threshold e (fs w)) :
  cleanCache cfg e w = (Ok tt, with_out (out w ++ [usage_report (c_usage e (fs w))]) w).
Proof.
  apply Qltb_lt in Hover.
  unfold cleanCache. unfold bind at 1. unfold age_pass. unfold bind at 1.
  rewrite glob_matching, Hnone. cbn [sort_natural for_each ret].
  unfold bind at 1. unfold usage_pass. unfold bind at 1.
  rewrite glob_matching, Hnone. cbn [sort_natural].
  unfold bind at 1. unfold disk_usage at 1. unfold bind at 1.
  rewrite used_fraction_run by done. unfold bind at 1. unfold print, emit.
  cbn [usage_loop]. unfold bind at 1.
  rewrite (used_fraction_run e (fs w)) by done. rewrite Hover. reflexivity.
Qed.

Lemma cleanCache_return_skips_sweep_witness :
  fs (cleanCache example_config full_clean example_world).2 !! "junk" = Some "junk".
Proof.
  rewrite cleanCache_return_skips_sweep; [reflexivity | reflexivity | done |].
  vm_compute. reflexivity.
Defined.




Lemma age_body_run cfg e n w :
  mediapath cfg = "/media" -> (0 <= n)%Z ->
  is_Some (fs w !! segment_path n) -> is_Some (fs w !! chain_path n) ->
  (let* mtime := os_stat_mtime e (path_join (mediapath cfg) (segment_path n)) in
   if Qltb mtime (c_now e - 5400)
   then print [AStr "Cleaning up:"; AStr (segment_path n)] >>
        remove_segment cfg (segment_path n)
   else ret tt) w
  = (Ok tt,
     if expired e n
     then with_fs (remove_pair (fs w) n) (with_out (out w ++ [cleanup_report n]) w)
     else w).
Proof.
  intros Hmp Hn [x Hx] Hchain. unfold bind at 1. rewrite Hmp at 1.
  change (path_join "/media" (segment_path n)) with (segment_path n).
  unfold os_stat_mtime. change (norm (segment_path n)) with (segment_path n).
  rewrite Hx. fold (expired e n). destruct (expired e n); [|reflexivity].
  unfold bind at 1. unfold print, emit. fold (cleanup_report n).
  by rewrite remove_segment_run by (done || by exists x).
Qed.

Lemma age_loop_run cfg e (Hmp : mediapath cfg = "/media") : forall ids w,
  NoDup ids -> Forall (Z.le 0) ids ->
  (forall n, n ∈ ids ->
     is_Some (fs w !! segment_path n) /\ is_Some (fs w !! chain_path n)) ->
  for_each (map segment_path ids)
    (fun file =>
       let* mtime := os_stat_mtime e (path_join (mediapath cfg) file) in
       if Qltb mtime (c_now e - 5400)
       then print [AStr "Cleaning up:"; AStr file] >> remove_segment cfg file
       else ret tt) w
  = (Ok tt,
     {| self := self w;
        fs := evicted (List.filter (expired e) ids) (fs w);
        out := (out w ++ map cleanup_report (List.filter (expired e) ids))%list |}).
Proof.
  induction ids as [|n ids IH]; intros w Hnd Hnn Hfiles.
  - destruct w. cbn. by rewrite app_nil_r.
  - apply NoDup_cons in Hnd as [Hn Hnd]. apply Forall_cons in Hnn as [Hn0 Hnn].
    destruct (Hfiles n) as [Hseg Hchain]; [left|].
    cbn [map for_each List.filter]. unfold bind at 1.
    rewrite (age_body_run cfg e n w) by done.
    destruct (expired e n) eqn:Hold.
    + rewrite IH; [|done|done|].
      * cbn [map]. rewrite evicted_cons. cbn. by rewrite <- app_assoc.
      * intros m Hm. assert (n <> m) by (intros ->; done).
        assert (0 <= m)%Z by (rewrite Forall_forall in Hnn; by apply Hnn).
        cbn [fs with_fs with_out].
        rewrite remove_pair_other_segment, remove_pair_other_chain by done.
        apply Hfiles. by right.
    + apply IH; [done|done|]. intros m Hm. apply Hfiles. by right.
Qed.

(** X20. Let the [media*.flv] files of the media directory be the
    videos of the segments [ids], in ascending order, each with its
    chain file. The age pass removes the video and the chain file of
    exactly the segments whose video is older than 90 minutes, lowest
    number first, and reports each; the others stay. *)
Theorem age_pass_removes_expired_segments cfg e w ids
    (Hmp : mediapath cfg = "/media")
    (Hsorted : StronglySorted Z.lt ids)
    (Hnonneg : Forall (Z.le 0) ids)
    (Hdir : matching "/media" "media" ".flv" (fs w) ≡ₚ map segment_path ids)
    (Hchains : forall n, n ∈ ids -> is_Some (fs w !! chain_path n)) :
  age_pass cfg e w
  = (Ok tt,
     {| self := self w;
        fs := evicted (List.filter (expired e) ids) (fs w);
        out := (out w ++ map cleanup_report (List.filter (expired e) ids))%list |}).
Proof.
  assert (Hsort : sort_natural (matching "/media" "media" ".flv" (fs w))
                  = map segment_path ids).
  { by apply (sort_natural_ascending segment_path segment_path_lt). }
  unfold age_pass. unfold bind at 1. rewrite glob_matching.
  rewrite Hmp at 1. rewrite Hsort.
  apply (age_loop_run cfg e Hmp); [by apply sorted_NoDup | done |].
  intros n Hn. split; [|by apply Hchains].
  apply (matching_present "/media" "media" ".flv"). rewrite Hdir.
  apply list_elem_of_fmap. eauto.
Qed.

Lemma age_pass_removes_expired_segments_witness :
  fs (age_pass example_config aging_clean two_segment_world).2
  = delete "/media/playlist2.txt" (delete "/media/media2.flv" (fs two_segment_world)).
Proof.
  rewrite (age_pass_removes_expired_segments example_config aging_clean two_segment_world
             [2; 10]%Z).
  - reflexivity.
  - reflexivity.
  - repeat constructor; lia.
  - repeat constructor; lia.
  - vm_compute. first [ reflexivity | apply perm_swap ].
  - intros n Hn. apply list_elem_of_In in Hn.
    destruct Hn as [<-|[<-|[]]]; vm_compute; eauto.
Defined.

(** ** Candidates without a protocol *)

Lemma split_first sep s : exists x, Py.split sep s !! 0%nat = Some x.
Proof.
  unfold Py.split. pose proof (split_go_nonempty sep 0 "" s) as H.
  destruct (Py.split_go sep 0 "" s); [done | eauto].
Qed.

Lemma processFile_no_protocol cfg e file w :
  Py.split "://" file !! 1%nat = None ->
  processFile cfg e file w
  = (Raise IndexError,
     with_out (out w ++ [Print [AStr "Filename:";
                                AStr (Py.lower (Py.last (Py.split "/" file)))]]) w).
Proof.
  intros Hno. unfold processFile. cbv zeta. unfold bind at 1. unfold print, emit.
  destruct (split_first "://" file) as [x Hx]. rewrite Hx, Hno. reflexivity.
Qed.

(** X21. A candidate without [://] is not survived by the cycle: when
    the selection loop draws an allowed line that has no [://],
    [processFile] ends by an [IndexError] before its [try], the loop
    does not catch it, and [updatePlaylist] ends by that exception
    without having written a file or changed [self]. *)
Theorem updatePlaylist_needs_protocol cfg e a attempts inputlist w
    (Hattempts : y_attempts e = a :: attempts)
    (Hext : Py.inb (Py.lower (Py.last (Py.split "."
                      (random_choice (a_pick a) (Py.split "\n" inputlist)))))
              (extensions cfg) = true)
    (Hno : Py.split "://" (random_choice (a_pick a) (Py.split "\n" inputlist)) !! 1%nat
           = None) :
  exists w',
    updatePlaylist cfg e inputlist w = (Raise IndexError, w')
    /\ fs w' = fs w /\ self w' = self w.
Proof.
  unfold updatePlaylist. rewrite Hattempts. unfold bind at 1. cbn [select_loop].
  rewrite Hext. cbn [negb]. unfold bind at 1. unfold print, emit. unfold bind at 1.
  rewrite processFile_no_protocol by done. eexists. split; [reflexivity|]. done.
Qed.

Lemma updatePlaylist_needs_protocol_witness :
  (updatePlaylist example_config
     {| y_attempts := [draw 0]; y_clean := late_clean |} "a.mp3" example_world).1
  = Raise IndexError.
Proof.
  destruct (updatePlaylist_needs_protocol example_config
              {| y_attempts := [draw 0]; y_clean := late_clean |} (draw 0) [] "a.mp3"
              example_world) as (w' & H & _); [reflexivity..|].
  by rewrite H.
Defined.

(** ** The gas tank over time *)

Lemma gas_event_run a w :
  exists w',
    gas_event a w = (Ok tt, w')
    /\ fs w' = fs w /\ starttime (self w') = starttime (self w)
    /\ (gastank (self w') + elapsedtime (self w')
        == gastank (self w) + elapsedtime (self w) + queued_total [a])%Q.
Proof.
  destruct a as [t|d]; cbn [gas_event queued_total].
  - unfold bind. rewrite checkGas_run. eexists. split; [reflexivity|].
    cbn. split; [done|]. split; [done|]. ring.
  - eexists. split; [reflexivity|]. cbn. split; [done|]. split; [done|]. ring.
Qed.

(** X22. Over any sequence of readings and queueings the gas tank keeps
    its balance: the level plus the elapsed time is what it was at the
    start plus the seconds queued. No reading and no queueing fails,
    writes a file or moves the start time. *)
Theorem gas_tank_balance evs : forall w,
  exists w',
    for_each evs gas_event w = (Ok tt, w')
    /\ fs w' = fs w /\ starttime (self w') = starttime (self w)
    /\ (gastank (self w') + elapsedtime (self w')
        == gastank (self w) + elapsedtime (self w) + queued_total evs)%Q.
Proof.
  induction evs as [|a evs IH]; intros w.
  - exists w. split; [reflexivity|]. split; [done|]. split; [done|]. cbn. ring.
  - destruct (gas_event_run a w) as (w1 & Hrun1 & Hfs1 & Hst1 & Hbal1).
    destruct (IH w1) as (w' & Hrun & Hfs & Hst & Hbal).
    exists w'. cbn [for_each]. unfold bind. rewrite Hrun1.
    split; [exact Hrun|]. split; [congruence|]. split; [congruence|].
    rewrite Hbal, Hbal1. destruct a; cbn [queued_total]; ring.
Qed.

(** ** One step of tuning *)

(** X23. From a state within bounds, one tuning moves the quality
    factor by at most one and the preset by at most one, and a ratio
    equal to the target speed changes nothing. *)
Theorem tune_moves_one_step cfg ratio s
    (Hb : in_bounds cfg s) :
  (Z.abs (crf (tune cfg ratio s) - crf s) <= 1)%Z
  /\ (Z.abs (preset (tune cfg ratio s) - preset s) <= 1)%Z
  /\ ((ratio == targetspeed cfg)%Q -> tune cfg ratio s = s).
Proof.
  destruct Hb as [Hc Hp]. split; [|split].
  - unfold tune. repeat case_match; simpl; unfold clamp; lia.
  - unfold tune. repeat case_match; simpl; lia.
  - intros Heq. unfold tune.
    assert (H1 : Qltb ratio (targetspeed cfg) = false) by (apply Qltb_ge; lra).
    assert (H2 : Qltb (targetspeed cfg) ratio = false) by (apply Qltb_ge; lra).
    assert (H3 : Qltb ratio (targetspeed cfg - 0.5) = false) by (apply Qltb_ge; lra).
    assert (H4 : Qltb (targetspeed cfg + 0.5) ratio = false) by (apply Qltb_ge; lra).
    rewrite H1, H2, H3, H4. cbn [andb]. rewrite clamp_id by done. by destruct s.
Qed.

Lemma tune_moves_one_step_witness :
  tune example_config 2 init_state = init_state.
Proof.
  destruct (tune_moves_one_step example_config 2 init_state) as (_ & _ & H).
  - split; simpl; lia.
  - apply H. reflexivity.
Defined.

(** ** Archives *)



(** X25. The loop over nested archives ends normally only with a name
    that does not end in [.zip], and a name that does not end in
    [.zip] is returned as it is, no archive being opened. *)
Theorem unzip_nested_ends_outside_archives cfg zs : forall src w,
  (forall s w', unzip_nested cfg zs src w = (Ok s, w') -> Py.endswith s ".zip" = false)
  /\ (Py.endswith src ".zip" = false -> unzip_nested cfg zs src w = (Ok src, w)).
Proof.
  induction zs as [|z zs IH]; intros src w; cbn [unzip_nested].
  - destruct (Py.endswith src ".zip") eqn:E; (split; [|done]).
    + intros s w' [=].
    + intros s w' [= <- <-]. exact E.
  - destruct (Py.endswith src ".zip") eqn:E; (split; [|done]).
    + intros s w'. unfold bind.
      destruct (processZip cfg z src w) as [[s1| |] w1]; [|done..].
      apply IH.
    + intros s w' [= <- <-]. exact E.
Qed.

(** ** What a conversion reports *)

(** X26. When [convertFile], given a file of the working directory,
    returns a dictionary with a [playfile], that name is
    [media<n>.flv] for the next file number [n], the duration it
    reports is the one measured after trimming, not the one probed, and
    [self] and every file outside the working directory are as they
    were. *)
Theorem convertFile_reports_trimmed_duration cfg c file w fd w'
    (Hfile : no_slash file)
    (Hrun : convertFile cfg c file w = (Ok fd, w'))
    (Hplay : is_Some (fd_playfile fd)) :
  fd_playfile fd = Some (segment_name (filenumber (self w) + 1))
  /\ is_Some (fd_duration fd) /\ fd_duration fd = v_time c
  /\ self w' = self w
  /\ forall p, ~ no_slash p -> fs w' !! p = fs w !! p.
Proof.
  pose proof (convertFile_spec cfg c file w Hfile) as Hspec.
  unfold wp in Hspec. rewrite Hrun in Hspec. cbn [fst snd] in Hspec.
  destruct (Hspec fd eq_refl) as [Hnone|(d & Hacc & Hp & Hd)].
  { rewrite Hnone in Hplay. by destruct Hplay. }
  destruct Hacc as (j & d0 & _ & _ & _ & _ & _ & Htime & _).
  assert (Hframe : within cwd_quiet w w').
  { eapply within_mono; [apply prelude_le_cwd_quiet|].
    pose proof (convertFile_stays cfg c file Hfile w) as H. by rewrite Hrun in H. }
  apply within_cwd_quiet_frame in Hframe as [Hself Hfs].
  split; [exact Hp|]. split; [by rewrite Hd|]. split; [congruence|]. by split.
Qed.

Lemma convertFile_reports_trimmed_duration_witness :
  exists fd w',
    convertFile example_config example_conv "a.mp3"
      (with_fs (<["a.mp3" := "mp3"]> (fs example_world)) example_world) = (Ok fd, w')
    /\ fd_playfile fd = Some "media1.flv" /\ fd_duration fd = Some 118%Q.
Proof.
  do 2 eexists. split; [vm_compute; reflexivity|].
  match goal with
  | |- fd_playfile ?fd = _ /\ _ =>
      destruct (convertFile_reports_trimmed_duration example_config example_conv "a.mp3"
                  (with_fs (<["a.mp3" := "mp3"]> (fs example_world)) example_world)
                  fd
                  (convertFile example_config example_conv "a.mp3"
                     (with_fs (<["a.mp3" := "mp3"]> (fs example_world)) example_world)).2)
        as (H1 & _ & H2 & _)
  end.
  - reflexivity.
  - vm_compute. reflexivity.
  - vm_compute. eauto.
  - split; [exact H1 | exact H2].
Defined.

(** ** The remote list as a string *)

Lemma escape_byte_plain c : plain_char c = true -> escape_byte "'" c = String c "".
Proof. destruct c as [[] [] [] [] [] [] [] []]; (discriminate || reflexivity). Qed.

Lemma plain_char_not_quote c : plain_char c = true -> Ascii.eqb c "'" = false.
Proof. destruct c as [[] [] [] [] [] [] [] []]; (discriminate || reflexivity). Qed.

Lemma plain_char_not_backslash c : plain_char c = true -> c <> "\"%char.
Proof. intros H ->. discriminate H. Qed.

Lemma escape_bytes_plain s : plain s = true -> escape_bytes "'" s = s.
Proof.
  induction s as [|c s IH]; [done|]. cbn [plain escape_bytes].
  intros [Hc Hs]%andb_prop. rewrite escape_byte_plain, IH by done.
  by rewrite app_cons, app_nil.
Qed.

Lemma escape_bytes_app q a b :
  escape_bytes q (a +:+ b) = escape_bytes q a +:+ escape_bytes q b.
Proof.
  induction a as [|c a IH]; [by rewrite !app_nil|].
  rewrite app_cons. cbn [escape_bytes]. by rewrite IH, app_assoc_s.
Qed.

Lemma plain_no_quote s : plain s = true -> Py.contains_char "'" s = false.
Proof.
  induction s as [|c s IH]; [done|]. cbn [plain Py.contains_char].
  intros [Hc Hs]%andb_prop. by rewrite plain_char_not_quote, IH.
Qed.

Lemma concat_cons2 sep (x y : string) ys :
  String.concat sep (x :: y :: ys) = x +:+ sep +:+ String.concat sep (y :: ys).
Proof. reflexivity. Qed.

Lemma concat_no_quote lines :
  forallb plain lines = true -> Py.contains_char "'" (String.concat Py.nl lines) = false.
Proof.
  induction lines as [|l [|l' ls] IH]; [done| |].
  - cbn [forallb String.concat]. intros [Hl _]%andb_prop. by apply plain_no_quote.
  - intros [Hl Hls]%andb_prop. rewrite concat_cons2, !contains_char_app.
    rewrite plain_no_quote by done. rewrite IH by done. reflexivity.
Qed.

Lemma escape_concat lines :
  forallb plain lines = true ->
  escape_bytes "'" (String.concat Py.nl lines) = String.concat "\n" lines.
Proof.
  induction lines as [|l [|l' ls] IH]; [done| |].
  - cbn [forallb String.concat]. intros [Hl _]%andb_prop. by apply escape_bytes_plain.
  - intros [Hl Hls]%andb_prop. rewrite !concat_cons2, !escape_bytes_app.
    rewrite escape_bytes_plain by done. rewrite IH by done. reflexivity.
Qed.

Lemma bytes_repr_lines lines :
  forallb plain lines = true ->
  bytes_repr (String.concat Py.nl lines) = "b'" +:+ String.concat "\n" lines +:+ "'".
Proof.
  intros H. unfold bytes_repr. rewrite concat_no_quote by done. cbn [andb].
  rewrite escape_concat by done. reflexivity.
Qed.

Lemma prefix_sep_other c s : c <> "\"%char -> String.prefix "\n" (String c s) = false.
Proof.
  intros Hc. cbn [String.prefix]. destruct (ascii_dec "\" c) as [<-|_]; done.
Qed.

Lemma prefix_sep_here s : String.prefix "\n" ("\n" +:+ s) = true.
Proof.
  rewrite !app_cons, app_nil. cbn [String.prefix].
  destruct (ascii_dec "\" "\"); [|done]. destruct (ascii_dec "n" "n"); [|done].
  by destruct s.
Qed.

Lemma split_go_plain s : forall cur rest,
  plain s = true ->
  Py.split_go "\n" 0 cur (s +:+ rest) = Py.split_go "\n" 0 (cur +:+ s) rest.
Proof.
  induction s as [|c s IH]; intros cur rest.
  - by rewrite app_nil, app_empty_r.
  - cbn [plain]. intros [Hc Hs]%andb_prop. rewrite app_cons. cbn [Py.split_go].
    rewrite prefix_sep_other by (by apply plain_char_not_backslash).
    rewrite IH by done. by rewrite app_String_assoc.
Qed.

Lemma split_go_sep cur rest :
  Py.split_go "\n" 0 cur ("\n" +:+ rest) = cur :: Py.split_go "\n" 0 "" rest.
Proof.
  pose proof (prefix_sep_here rest) as H. rewrite !app_cons, app_nil in *.
  cbn [Py.split_go]. rewrite H. reflexivity.
Qed.

Lemma split_go_quote cur : Py.split_go "\n" 0 cur "'" = [cur +:+ "'"].
Proof. reflexivity. Qed.

Lemma split_quoted_lines lines : forall cur,
  forallb plain lines = true ->
  Py.split_go "\n" 0 cur (String.concat "\n" lines +:+ "'") = quoted_lines cur lines.
Proof.
  induction lines as [|l [|l' ls] IH]; intros cur.
  - intros _. reflexivity.
  - cbn [forallb String.concat quoted_lines]. intros [Hl _]%andb_prop.
    rewrite split_go_plain by done. by rewrite split_go_quote, app_assoc_s.
  - intros [Hl Hls]%andb_prop. rewrite concat_cons2. cbn [quoted_lines].
    rewrite !app_assoc_s. rewrite split_go_plain by done.
    rewrite split_go_sep. f_equal. by apply IH.
Qed.

(** X27. [playlistCheck] hands the remote list to [updatePlaylist] as
    the text [str] makes of the bytes, and [updatePlaylist] splits it at
    backslash-n. For a list of plain lines the candidates are the lines
    themselves, except that the first carries the prefix [b'] and the
    last a closing quote. *)
Theorem remote_list_as_candidates lines
    (Hplain : forallb plain lines = true) :
  Py.split "\n" (bytes_repr (String.concat Py.nl lines)) = quoted_lines "b'" lines.
Proof.
  rewrite bytes_repr_lines by done. unfold Py.split.
  rewrite !app_cons, app_nil. cbn [Py.split_go].
  rewrite !prefix_sep_other by done.
  rewrite split_quoted_lines by done. reflexivity.
Qed.

Lemma remote_list_as_candidates_witness :
  Py.split "\n"
    (bytes_repr ("http://x/a.mp3" +:+ Py.nl +:+ "http://x/b.mp3" +:+ Py.nl))
  = ["b'http://x/a.mp3"; "http://x/b.mp3"; "'"].
Proof.
  apply (remote_list_as_candidates ["http://x/a.mp3"; "http://x/b.mp3"; ""]).
  reflexivity.
Defined.

(** ** The quality bounds over a whole run *)

Lemma keeps_ret {A} P (a : A) : keeps P (ret a).
Proof. by intros w. Qed.

Lemma keeps_bind {A B} P (m : M A) (k : A -> M B) :
  keeps P m -> (forall a, keeps P (k a)) -> keeps P (bind m k).
Proof.
  intros Hm Hk w HP. specialize (Hm w HP). unfold bind.
  destruct (m w) as [[a| |] w1]; cbn [snd] in *; [by apply Hk | done | done].
Qed.

Lemma keeps_try {A} P (m : M A) (h : Exn -> M A) :
  keeps P m -> (forall ex, keeps P (h ex)) -> keeps P (try_except m h).
Proof.
  intros Hm Hh w HP. specialize (Hm w HP). unfold try_except.
  destruct (m w) as [[a|ex|] w1]; cbn [snd] in *; [done | by apply Hh | done].
Qed.

Lemma keeps_frozen {A} P (m : M A) : stays frozen m -> keeps P m.
Proof. intros Hm w HP. destruct (Hm w) as [Hs _]. simpl in Hs. by rewrite <- Hs. Qed.

Lemma keeps_modify_self P f : (forall s, P s -> P (f s)) -> keeps P (modify_self f).
Proof. intros Hf w HP. by apply Hf. Qed.

Ltac keeps_step :=
  lazymatch goal with
  | |- keeps _ (bind _ _) => apply keeps_bind; [|intros ?]
  | |- keeps _ (try_except _ _) => apply keeps_try; [|intros ?]
  | |- keeps _ (ret _) => apply keeps_ret
  | |- keeps _ (modify_self _) => apply keeps_modify_self; intros ? ?; assumption
  | |- keeps _ (match ?x with _ => _ end) => destruct x eqn:?
  | |- keeps _ _ => apply keeps_frozen; solve [frozen_solve]
  end.

Lemma select_loop_in_bounds cfg attempts inputlist :
  (mincrf cfg <= maxcrf cfg)%Z ->
  keeps (in_bounds cfg) (select_loop cfg attempts inputlist).
Proof.
  intros Hcrf.
  induction attempts as [|a attempts IH]; cbn [select_loop]; [by intros w|].
  destruct (Py.inb _ (extensions cfg)); cbn [negb]; [|exact IH].
  apply keeps_bind; [apply keeps_frozen; frozen_solve | intros _].
  apply keeps_bind; [|intros status; destruct (status =? 0)%Z; [exact IH | apply keeps_ret]].
  intros w Hb.
  destruct (processFile cfg (a_proc a) _ w) as [r w'] eqn:Hrun. cbn [snd].
  destruct (processFile_cases _ _ _ _ _ _ Hrun) as [Hq _|d w1 data n took _ _ _ _ _ Hend].
  - apply within_cwd_quiet_frame in Hq as [-> _]. exact Hb.
  - destruct Hb as [Hb1 Hb2].
    destruct Hend as [(_ & _ & ->)|[(_ & _ & ->)|(_ & _ & -> & _)]];
      [by apply tune_in_bounds | done | by apply tune_in_bounds].
Qed.

Lemma playlistCheck_in_bounds cfg e :
  (mincrf cfg <= maxcrf cfg)%Z -> keeps (in_bounds cfg) (playlistCheck cfg e).
Proof.
  intros Hcrf.
  assert (Hcycle : forall y l, keeps (in_bounds cfg) (updatePlaylist cfg y l)).
  { intros y l. unfold updatePlaylist.
    apply keeps_bind; [by apply select_loop_in_bounds | intros _].
    apply keeps_frozen.
    apply stays_bind; [apply cleanCache_frozen | intros _; apply updateStartup_frozen]. }
  unfold playlistCheck, checkGas. repeat keeps_step; apply Hcycle.
Qed.

Lemma sanityCheck_in_bounds cfg startup : keeps (in_bounds cfg) (sanityCheck cfg startup).
Proof. unfold sanityCheck. repeat keeps_step. Qed.

Lemma initRun_in_bounds cfg now : keeps (in_bounds cfg) (initRun cfg now).
Proof. unfold initRun, getFileNumber. repeat keeps_step. Qed.

Lemma run_loop_in_bounds cfg turns :
  (mincrf cfg <= maxcrf cfg)%Z -> keeps (in_bounds cfg) (run_loop cfg turns).
Proof.
  intros Hcrf. induction turns as [|t turns IH]; cbn [run_loop]; [by intros w|].
  apply keeps_bind; [apply sanityCheck_in_bounds | intros _].
  apply keeps_bind; [by apply playlistCheck_in_bounds | intros _; exact IH].
Qed.

(** X28. The quality bounds hold over a whole run: from a state with
    the quality factor within [mincrf, maxcrf] and the preset within
    [0, 8], they are so after [run] has gone through any number of
    turns, whatever the environment does in them and however the run
    ends. *)
Theorem run_keeps_quality_bounds cfg now turns w
    (Hcrf : (mincrf cfg <= maxcrf cfg)%Z)
    (Hb : in_bounds cfg (self w)) :
  in_bounds cfg (self (run cfg now turns w).2).
Proof.
  revert w Hb. change (keeps (in_bounds cfg) (run cfg now turns)). unfold run.
  apply keeps_bind; [apply initRun_in_bounds | intros _; by apply run_loop_in_bounds].
Qed.

Lemma run_keeps_quality_bounds_witness :
  in_bounds example_config
    (self (run example_config 0
             [{| t_startup := None; t_check := example_check |}; offline_turn]
             example_world).2).
Proof.
  apply run_keeps_quality_bounds; [done|]. split; simpl; lia.
Defined.

(** ** The text of the overlay *)

(** X29. A call of [makeText] that ends normally has written one file,
    the text file named in the dictionary, has printed the text it
    wrote, and has left [self] as it was. *)
Theorem makeText_writes_what_it_prints cfg wrap data w
    (Hok : (makeText cfg wrap data w).1 = Ok tt) :
  exists textfile text,
    fd_textfile data = Some textfile
    /\ makeText cfg wrap data w
       = (Ok tt,
          {| self := self w;
             fs := <[norm textfile := text]> (fs w);
             out := (out w ++ [Print [AStr "Wrapped lines:"]; Print [AStr text]])%list |}).
Proof.
  revert Hok. unfold makeText.
  destruct (fd_textfile data) as [textfile|]; [|done].
  destruct (fd_title data) as [title|];
    [|by unfold bind, open_write; cbn; case_bool_decide].
  destruct (fd_filename data) as [filename|];
    [|by unfold bind, open_write; cbn; case_bool_decide].
  cbv zeta. cbn [of_option]. unfold bind at 1. cbn [ret]. unfold bind at 1.
  unfold open_write at 1. case_bool_decide as Hp; [done|].
  intros _. exists textfile. eexists. split; [reflexivity|].
  unfold bind, ret, print, emit, open_write. cbn [fs out self with_fs with_out].
  rewrite bool_decide_eq_false_2 by done.
  unfold with_fs, with_out. cbn [fs out self].
  rewrite insert_insert_eq. by rewrite <- app_assoc.
Qed.

Lemma makeText_writes_what_it_prints_witness :
  exists textfile text,
    Some "media1.txt" = Some textfile
    /\ makeText example_config (fun l => [l])
         {| fd_filename := Some "a.mp3"; fd_title := Some "A"; fd_artist := None;
            fd_comments := None; fd_duration := None; fd_playfile := None;
            fd_textfile := Some "media1.txt" |} empty_world
       = (Ok tt,
          {| self := init_state;
             fs := <[norm textfile := text]> ∅;
             out := [Print [AStr "Wrapped lines:"]; Print [AStr text]] |}).
Proof.
  apply (makeText_writes_what_it_prints example_config (fun l => [l])
           {| fd_filename := Some "a.mp3"; fd_title := Some "A"; fd_artist := None;
              fd_comments := None; fd_duration := None; fd_playfile := None;
              fd_textfile := Some "media1.txt" |} empty_world).
  vm_compute. reflexivity.
Defined.

(** ** The results of [processFile] *)

(** X30. [processFile] returns 0 or 1, or ends by the [IndexError] of a
    candidate without [://]; every other exception is caught inside it.
    (In this model it may also be cut off in the loop over nested
    archives, when the archives the environment describes run out.) *)
Theorem processFile_returns_status cfg e file w :
  let r := (processFile cfg e file w).1 in
  r = Ok 0%Z \/ r = Ok 1%Z \/ r = Raise IndexError \/ r = Spin.
Proof.
  cbv zeta. destruct (processFile cfg e file w) as [r w'] eqn:Hrun. cbn [fst].
  destruct (processFile_cases _ _ _ _ _ _ Hrun)
    as [_ [H|[[H|H] _]]|d w1 data n took _ _ _ _ _ Hend]; auto.
  destruct Hend as [(-> & _)|[(-> & _)|(-> & _)]]; auto.
Qed.
